(** * glslViewer web front end: a shallow embedding of the JavaScript glue

    The development follows the four source modules:
    - [UI]      : the loader show/hide counter of [UIManager] (ui.js);
    - [Editor]  : [EditorManager] (error decoration, debounced change
                  notification, tab switching);
    - [Bridge]  : [GlslViewerIntegration] (glslviewer.js);
    - [GitHub]  : [GitHubIntegration] (github.js).

    JavaScript numbers that only ever count (the loader counter, line
    numbers, attempt counters) are integers far below 2^53 and are modelled
    as [Z] or [nat].  Strings are [string]s of 8-bit code units. *)

From stdpp Require Import gmap strings list sorting.
From Stdlib Require Import ZArith Lia Ascii String.
From Equations Require Import Equations.

Local Open Scope Z_scope.

(** JavaScript truthiness of a value that is a string, [null] or
    [undefined]: only a non-empty string is truthy. *)
Definition truthy (v : option string) : bool :=
  match v with
  | Some s => negb (String.eqb s "")
  | None => false
  end.

(** What a call that may throw yields. *)
Inductive Outcome (A : Type) :=
| Ok (a : A)
| Exn (e : string).
Arguments Ok {A} a.
Arguments Exn {A} e.

(** [s.trim()]: white space among 8-bit code units is tab, line feed,
    vertical tab, form feed, carriage return, space and no-break space. *)
Definition is_white_space (c : ascii) : bool :=
  let n := nat_of_ascii c in
  ((9 <=? n) && (n <=? 13) || (n =? 32) || (n =? 160))%nat.

Fixpoint trimStart (s : string) : string :=
  match s with
  | String c r => if is_white_space c then trimStart r else s
  | EmptyString => EmptyString
  end.

Fixpoint trimEnd (s : string) : string :=
  match s with
  | String c r =>
      match trimEnd r with
      | EmptyString => if is_white_space c then EmptyString
                       else String c EmptyString
      | r' => String c r'
      end
  | EmptyString => EmptyString
  end.

Definition trim (s : string) : string := trimEnd (trimStart s).

(** ** Suspended computations

    An [async] function, or the executor of a [new Promise], runs until it
    settles or reaches a suspension point (an [await], a [setTimeout]).  A
    [Run] is what such a computation has come to: the promise resolved, the
    promise rejected, or a request is outstanding and the continuation waits
    for its reply.  The continuation takes the state as it is when the reply
    arrives, which other code may have changed in the meantime. *)
Section Async.

Variables (St Req : Type) (Rep : Req -> Type).

Inductive Run (A : Type) :=
| Returned (s : St) (a : A)
| Thrown (s : St) (e : string)
| Awaiting (s : St) (r : Req) (k : Rep r -> St -> Run A).

Definition Task (A : Type) := St -> Run A.

Fixpoint run_bind {A B : Type} (r : Run A) (f : A -> Task B) : Run B :=
  match r with
  | Returned _ s a => f a s
  | Thrown _ s e => Thrown _ s e
  | Awaiting _ s q k => Awaiting _ s q (fun rep s' => run_bind (k rep s') f)
  end.

(** [try { ... } catch (e) { ... }] around a computation with [await]s. *)
Fixpoint run_catch {A : Type} (r : Run A) (h : string -> Task A) : Run A :=
  match r with
  | Returned _ s a => Returned _ s a
  | Thrown _ s e => h e s
  | Awaiting _ s q k => Awaiting _ s q (fun rep s' => run_catch (k rep s') h)
  end.

Definition task_ret {A : Type} (a : A) : Task A := fun s => Returned _ s a.
Definition task_throw {A : Type} (e : string) : Task A := fun s => Thrown _ s e.
Definition task_bind {A B : Type} (m : Task A) (f : A -> Task B) : Task B :=
  fun s => run_bind (m s) f.
Definition task_catch {A : Type} (m : Task A) (h : string -> Task A) : Task A :=
  fun s => run_catch (m s) h.
Definition await (q : Req) : Task (Rep q) :=
  fun s => Awaiting _ s q (fun rep s' => Returned _ s' rep).

(** The state a run has reached. *)
Definition state_of {A : Type} (r : Run A) : St :=
  match r with
  | Returned _ s _ => s
  | Thrown _ s _ => s
  | Awaiting _ s _ _ => s
  end.

(** A run none of whose futures ends in a rejection. *)
Inductive never_rejects {A : Type} : Run A -> Prop :=
| nr_returned s a : never_rejects (Returned _ s a)
| nr_awaiting s q k :
    (forall rep s', never_rejects (k rep s')) ->
    never_rejects (Awaiting _ s q k).

End Async.

Arguments Returned {St Req Rep A} s a.
Arguments Thrown {St Req Rep A} s e.
Arguments Awaiting {St Req Rep A} s r k.
Arguments run_bind {St Req Rep A B} r f.
Arguments run_catch {St Req Rep A} r h.
Arguments task_ret {St Req Rep A} a _.
Arguments task_throw {St Req Rep A} e _.
Arguments task_bind {St Req Rep A B} m f _.
Arguments task_catch {St Req Rep A} m h _.
Arguments await {St Req Rep} q _.
Arguments state_of {St Req Rep A} r.
Arguments never_rejects {St Req Rep A} r.

(** ** What holds however a run goes on

    [always P r]: [P] holds of the final state and outcome of [r] whatever
    the replies are and whatever happens to the state while it waits. *)
Section Futures.

Variables (St Req : Type) (Rep : Req -> Type).

Inductive always {A : Type} (P : St -> Outcome A -> Prop)
    : Run St Req Rep A -> Prop :=
| always_returned s a : P s (Ok a) -> always P (Returned s a)
| always_thrown s e : P s (Exn e) -> always P (Thrown s e)
| always_awaiting s q k :
    (forall rep s', always P (k rep s')) ->
    always P (Awaiting s q k).

End Futures.

Arguments always {St Req Rep A} P r.

(* ===================================================================== *)
(** * ui.js: the loader counter *)
(* ===================================================================== *)

Module UI.

(** The [#loader] element: whether its class list holds ['visible'], and the
    [innerText] of its [.loader-content] child when there is one. *)
Record LoaderEl := mkLoaderEl {
  visible : bool;
  loaderContent : option string
}.

(** The fields of [UIManager] the loader methods touch.  [loader] is [None]
    when [document.getElementById('loader')] found nothing. *)
Record UIManager := mkUI {
  loader : option LoaderEl;
  loaderCount : Z
}.

(** [new UIManager()] on a page whose [#loader] lookup gave [l]. *)
Definition constructor (l : option LoaderEl) : UIManager :=
  {| loader := l; loaderCount := 0 |}.

(** [if (text && this.loaderContent) this.loaderContent.innerText = text] *)
Definition setText (text : option string) (l : LoaderEl) : LoaderEl :=
  match text, loaderContent l with
  | Some t, Some _ =>
      if truthy text then {| visible := visible l; loaderContent := Some t |} else l
  | _, _ => l
  end.

Definition showLoader (text : option string) (u : UIManager) : UIManager :=
  let c := loaderCount u + 1 in
  match loader u with
  | Some l =>
      let l1 := setText text l in
      let l2 := if 0 <? c
                then {| visible := true; loaderContent := loaderContent l1 |}
                else l1 in
      {| loader := Some l2; loaderCount := c |}
  | None => {| loader := None; loaderCount := c |}
  end.

Definition updateLoader (text : option string) (u : UIManager) : UIManager :=
  {| loader := setText text <$> loader u; loaderCount := loaderCount u |}.

Definition hideLoader (u : UIManager) : UIManager :=
  let c := loaderCount u - 1 in
  match loader u with
  | Some l =>
      if c <=? 0
      then {| loader := Some {| visible := false;
                                loaderContent :=
                                  match loaderContent l with
                                  | Some _ => Some "Loading..."%string
                                  | None => None
                                  end |};
              loaderCount := 0 |}
      else {| loader := Some l; loaderCount := c |}
  | None => {| loader := None; loaderCount := c |}
  end.

(** A request made through [window.glslViewerLoader] or by the application. *)
Inductive call :=
| Show (text : option string)
| Hide.

Definition perform (u : UIManager) (c : call) : UIManager :=
  match c with
  | Show text => showLoader text u
  | Hide => hideLoader u
  end.

Definition run (calls : list call) (u : UIManager) : UIManager :=
  fold_left perform calls u.

(** Whether the spinner is on screen. *)
Definition isVisible (u : UIManager) : bool :=
  match loader u with
  | Some l => visible l
  | None => false
  end.

(** The counter the data model describes: up by one on a show, down by one
    on a hide, never below zero. *)
Definition net_step (n : Z) (c : call) : Z :=
  match c with
  | Show _ => n + 1
  | Hide => Z.max 0 (n - 1)
  end.

Definition net (calls : list call) : Z := fold_left net_step calls 0.

(** What every call keeps true once the element exists: the counter is not
    negative, and a positive counter means the spinner shows. *)
Definition loader_inv (u : UIManager) : Prop :=
  is_Some (loader u) /\ 0 <= loaderCount u /\
  (0 < loaderCount u -> isVisible u = true).

(** ** Fullscreen

    The elements [setFullscreen] looks up: [#wrapper] with its class list
    and its [style.transform]; the class list of [body]; the
    [style.display] of [#editor-container] and of the parent of
    [#console-output].  An element is [None] when the page does not have
    it. *)
Record Wrapper := mkWrapper {
  classList : gset string;
  transform : string
}.

Record Page := mkPage {
  wrapper : option Wrapper;
  body_classList : gset string;
  editorContainer : option string;
  consoleParent : option string
}.

(** [wrapper && wrapper.classList.contains('fullscreen')], as its callers
    read it: as a condition. *)
Definition getFullscreen (p : Page) : bool :=
  match wrapper p with
  | Some w => bool_decide ("fullscreen"%string ∈ classList w)
  | None => false
  end.

Definition setFullscreen (isFullscreen : bool) (p : Page) : Page :=
  match wrapper p with
  | Some w =>
      if isFullscreen
      then {| wrapper := Some {| classList := ({[ "fullscreen"%string ]} ∪ classList w)
                                               ∖ {[ "windowed"%string ]};
                                 transform := "none" |};
              body_classList := body_classList p ∖ {[ "windowed-mode"%string ]};
              editorContainer := (fun _ => "none"%string) <$> editorContainer p;
              consoleParent := (fun _ => "none"%string) <$> consoleParent p |}
      else {| wrapper := Some {| classList := {[ "windowed"%string ]} ∪
                                               (classList w ∖ {[ "fullscreen"%string ]});
                                 transform := transform w |};
              body_classList := {[ "windowed-mode"%string ]} ∪ body_classList p;
              editorContainer := (fun _ => "block"%string) <$> editorContainer p;
              consoleParent := (fun _ => "flex"%string) <$> consoleParent p |}
  | None => p
  end.

End UI.

(* ===================================================================== *)
(** * editor.js: [EditorManager] *)
(* ===================================================================== *)

Module Editor.

(** The two buffers, ['frag'] and ['vert']. *)
Inductive TabKind := frag | vert.

Global Instance TabKind_eq_dec : EqDecision TabKind.
Proof. solve_decision. Defined.

(** [this.content = { frag: ..., vert: ... }] *)
Record Content := mkContent {
  c_frag : string;
  c_vert : string
}.

Definition getBuffer (c : Content) (k : TabKind) : string :=
  match k with
  | frag => c_frag c
  | vert => c_vert c
  end.

Definition setBuffer (c : Content) (k : TabKind) (v : string) : Content :=
  match k with
  | frag => {| c_frag := v; c_vert := c_vert c |}
  | vert => {| c_frag := c_frag c; c_vert := v |}
  end.

(** Modelled from the spec: the host text-editing widget (CodeMirror), an
    external collaborator that is not part of the sources.  It holds the live
    text ([getValue]/[setValue]), a syntax mode, and the set of zero-based
    lines carrying the background class ['error-line']; it signals ['change']
    to its listeners after every change of the text, programmatic ones
    included. *)
Record Widget := mkWidget {
  value : string;
  mode : string;
  errorLines : gset nat
}.

(** A listener installed by [onChange(callback, debounceMs)]; callbacks are
    opaque to the editor and are known by a name. *)
Record Listener := mkListener {
  callback : nat;
  debounceMs : nat
}.

(** A pending [setTimeout]: when it is due, and which listener's closure it
    runs. *)
Record Timer := mkTimer {
  due : nat;
  closure : Listener
}.

(** [EditorManager] together with the part of the browser it drives: the
    clock (milliseconds), the table of pending timers, the next timer id
    (ids are positive integers, hence truthy), and the trace of callback
    invocations as (time, callback) pairs. *)
Record State := mkState {
  activeTab : TabKind;
  content : Content;
  updateTimeout : option positive;
  editor : Widget;
  listeners : list Listener;
  now : nat;
  timers : gmap positive Timer;
  nextTimer : positive;
  invoked : list (nat * nat)
}.

Definition with_activeTab (k : TabKind) (s : State) : State :=
  mkState k (content s) (updateTimeout s) (editor s) (listeners s)
          (now s) (timers s) (nextTimer s) (invoked s).
Definition with_content (c : Content) (s : State) : State :=
  mkState (activeTab s) c (updateTimeout s) (editor s) (listeners s)
          (now s) (timers s) (nextTimer s) (invoked s).
Definition with_updateTimeout (u : option positive) (s : State) : State :=
  mkState (activeTab s) (content s) u (editor s) (listeners s)
          (now s) (timers s) (nextTimer s) (invoked s).
Definition with_editor (e : Widget) (s : State) : State :=
  mkState (activeTab s) (content s) (updateTimeout s) e (listeners s)
          (now s) (timers s) (nextTimer s) (invoked s).
Definition with_listeners (l : list Listener) (s : State) : State :=
  mkState (activeTab s) (content s) (updateTimeout s) (editor s) l
          (now s) (timers s) (nextTimer s) (invoked s).
Definition with_now (t : nat) (s : State) : State :=
  mkState (activeTab s) (content s) (updateTimeout s) (editor s) (listeners s)
          t (timers s) (nextTimer s) (invoked s).
Definition with_timers (m : gmap positive Timer) (s : State) : State :=
  mkState (activeTab s) (content s) (updateTimeout s) (editor s) (listeners s)
          (now s) m (nextTimer s) (invoked s).
Definition with_nextTimer (n : positive) (s : State) : State :=
  mkState (activeTab s) (content s) (updateTimeout s) (editor s) (listeners s)
          (now s) (timers s) n (invoked s).
Definition with_invoked (l : list (nat * nat)) (s : State) : State :=
  mkState (activeTab s) (content s) (updateTimeout s) (editor s) (listeners s)
          (now s) (timers s) (nextTimer s) l.

(** [new EditorManager(containerId, defaultContent)] in a browser whose clock
    reads [t]; the mode is the one [initializeEditor] passes. *)
Definition constructor (defaultContent : Content) (t : nat) : State :=
  {| activeTab := frag;
     content := defaultContent;
     updateTimeout := None;
     editor := {| value := c_frag defaultContent;
                  mode := "x-shader/x-fragment";
                  errorLines := ∅ |};
     listeners := [];
     now := t;
     timers := ∅;
     nextTimer := 1%positive;
     invoked := [] |}.

(** ** Browser primitives *)

Definition setTimeout (l : Listener) (ms : nat) (s : State) : positive * State :=
  let id := nextTimer s in
  (id, with_nextTimer (Pos.succ id)
         (with_timers (<[id := {| due := (now s + ms)%nat; closure := l |}]> (timers s)) s)).

Definition clearTimeout (id : positive) (s : State) : State :=
  with_timers (delete id (timers s)) s.

(** Calling an opaque callback: recorded with the time of the call. *)
Definition invoke (cb : nat) (s : State) : State :=
  with_invoked (invoked s ++ [(now s, cb)]) s.

(** ** Error decoration *)

Definition is_digit (c : ascii) : bool :=
  let n := nat_of_ascii c in ((48 <=? n) && (n <=? 57))%nat.

(** What [.] refuses in a JavaScript regular expression without the [s]
    flag: line feed and carriage return (U+2028 and U+2029 lie outside 8-bit
    code units). *)
Definition is_line_terminator (c : ascii) : bool :=
  let n := nat_of_ascii c in ((n =? 10) || (n =? 13))%nat.

Fixpoint span_digits (s : string) : string * string :=
  match s with
  | String c r =>
      if is_digit c
      then let (ds, rest) := span_digits r in (String c ds, rest)
      else (EmptyString, s)
  | EmptyString => (EmptyString, EmptyString)
  end.

Fixpoint all_digits (s : string) : bool :=
  match s with
  | String c r => is_digit c && all_digits r
  | EmptyString => true
  end.

Fixpoint no_line_terminator (s : string) : bool :=
  match s with
  | String c r => negb (is_line_terminator c) && no_line_terminator r
  | EmptyString => true
  end.

(** [text.match(errorRegex)]: the two captured groups.  The pattern is
    anchored at both ends: [0], a colon, one or more decimal digits (group 1),
    a colon, then any run of characters other than line terminators
    (group 2).  The greedy digit group has only one way to succeed, since the
    character after the digits must be the colon. *)
Definition errorRegex_match (text : string) : option (string * string) :=
  match text with
  | String "0" (String ":" r) =>
      match span_digits r with
      | (EmptyString, _) => None
      | (ds, String ":" msg) =>
          if no_line_terminator msg then Some (ds, msg) else None
      | _ => None
      end
  | _ => None
  end.

(** [parseInt(ds, 10)] on a string of decimal digits. *)
Fixpoint parseInt_acc (acc : Z) (ds : string) : Z :=
  match ds with
  | String c r => parseInt_acc (10 * acc + (Z.of_nat (nat_of_ascii c) - 48)) r
  | EmptyString => acc
  end.

Definition parseInt (ds : string) : Z := parseInt_acc 0 ds.

Definition addLineClass (n : nat) (e : Widget) : Widget :=
  {| value := value e; mode := mode e; errorLines := {[n]} ∪ errorLines e |}.

(** [eachLine(h => removeLineClass(h, 'background', 'error-line'))] *)
Definition clearErrorHighlighting (s : State) : State :=
  with_editor {| value := value (editor s); mode := mode (editor s);
                 errorLines := ∅ |} s.

Section ErrorHighlighting.

(** [editor.lineCount()] as a function of the document text; how the widget
    splits its text into lines is the widget's business. *)
Variable lineCount : string -> nat.

(** The ['wasm-stderr'] listener installed by [setupErrorHighlighting], run
    on an event whose [detail] is [text].  [this.editor] is set by the
    constructor and never cleared. *)
Definition onWasmStderr (text : string) (s : State) : State :=
  match errorRegex_match text with
  | Some (ds, _) =>
      let line := parseInt ds in
      let cmLine := line - 1 in
      if (0 <=? cmLine) && (cmLine <? Z.of_nat (lineCount (value (editor s))))
      then with_editor (addLineClass (Z.to_nat cmLine) (editor s)) s
      else s
  | None => s
  end.

End ErrorHighlighting.

(** ** Debounced change notification *)

(** [onChange(callback, debounceMs)]: one more ['change'] listener. *)
Definition onChange (cb : nat) (ms : nat) (s : State) : State :=
  with_listeners (listeners s ++ [{| callback := cb; debounceMs := ms |}]) s.

(** The body of the ['change'] listener. *)
Definition changeListener (l : Listener) (s : State) : State :=
  let s1 := clearErrorHighlighting s in
  let s2 := match updateTimeout s1 with
            | Some id => clearTimeout id s1
            | None => s1
            end in
  let (id, s3) := setTimeout l (debounceMs l) s2 in
  with_updateTimeout (Some id) s3.

(** The widget signalling ['change'] to every listener, in the order they
    were installed. *)
Definition signalChange (s : State) : State :=
  fold_left (fun s l => changeListener l s) (listeners s) s.

(** The body of the timer callback set by the ['change'] listener [l]. *)
Definition timerBody (l : Listener) (s : State) : State :=
  let currentCode := value (editor s) in
  let s1 := if decide (currentCode = getBuffer (content s) (activeTab s))
            then s
            else invoke (callback l) s in
  with_updateTimeout None s1.

(** [editor.setValue(v)]: a fresh document (no line classes), then
    ['change']. *)
Definition setValue (v : string) (s : State) : State :=
  signalChange
    (with_editor {| value := v; mode := mode (editor s); errorLines := ∅ |} s).

Definition getValue (s : State) : string := value (editor s).

Definition setOption_mode (m : string) (s : State) : State :=
  with_editor {| value := value (editor s); mode := m;
                 errorLines := errorLines (editor s) |} s.

(** ** Tab switching.  [onSwitch] is [None] when the argument is omitted. *)
Definition switchTab (type : TabKind) (onSwitch : option nat) (s : State) : State :=
  if decide (type = activeTab s) then s
  else
    let s1 := match updateTimeout s with
              | Some id =>
                  let s' := clearTimeout id s in
                  match onSwitch with
                  | Some f => invoke f s'
                  | None => s'
                  end
              | None => s
              end in
    let s2 := with_content (setBuffer (content s1) (activeTab s1) (getValue s1)) s1 in
    let s3 := with_activeTab type s2 in
    let s4 := match type with
              | frag => setOption_mode "x-shader/x-fragment" s3
              | vert => setOption_mode "x-shader/x-vertex" s3
              end in
    setValue (getBuffer (content s4) (activeTab s4)) s4.

Definition getContent (type : option TabKind) (s : State) : string :=
  getBuffer (content s) (default (activeTab s) type).

Definition setContent (type : TabKind) (v : string) (s : State) : State :=
  let s1 := with_content (setBuffer (content s) type v) s in
  if decide (type = activeTab s1) then setValue v s1 else s1.

(** ** The event loop, as far as the editor sees it *)

Inductive Event :=
| Edit (v : string)                                (* the user changes the text *)
| Fire (id : positive)                             (* a timer runs *)
| SwitchTab (type : TabKind) (onSwitch : option nat)
| SetContent (type : TabKind) (v : string).

(** One event at time [t].  Time does not go backwards, and a timer runs
    only when it is pending and due. *)
Definition step (t : nat) (e : Event) (s : State) : option State :=
  if (t <? now s)%nat then None
  else
    let s0 := with_now t s in
    match e with
    | Edit v =>
        Some (signalChange
                (with_editor {| value := v; mode := mode (editor s0);
                                errorLines := errorLines (editor s0) |} s0))
    | Fire id =>
        match timers s0 !! id with
        | Some tm =>
            if (due tm <=? t)%nat
            then Some (timerBody (closure tm) (clearTimeout id s0))
            else None
        | None => None
        end
    | SwitchTab type onSwitch => Some (switchTab type onSwitch s0)
    | SetContent type v => Some (setContent type v s0)
    end.

Fixpoint exec (evs : list (nat * Event)) (s : State) : option State :=
  match evs with
  | [] => Some s
  | (t, e) :: rest =>
      match step t e s with
      | Some s' => exec rest s'
      | None => None
      end
  end.

(** The state right after the user changed the text to [v] at time [t], with
    [l] the one listener installed: one timer, newly set. *)
Definition after_edit (v : string) (t : nat) (l : Listener) (s : State) : State :=
  {| activeTab := activeTab s;
     content := content s;
     updateTimeout := Some (nextTimer s);
     editor := {| value := v; mode := mode (editor s); errorLines := ∅ |};
     listeners := listeners s;
     now := t;
     timers := {[ nextTimer s := {| due := (t + debounceMs l)%nat; closure := l |} ]};
     nextTimer := Pos.succ (nextTimer s);
     invoked := invoked s |}.

(** The states the editor can be in: whatever timer is pending is the one
    [updateTimeout] names, and pending timers carry ids already handed
    out. *)
Definition well_formed (s : State) : Prop :=
  (forall id, is_Some (timers s !! id) -> updateTimeout s = Some id) /\
  (forall id, is_Some (timers s !! id) -> (id < nextTimer s)%positive) /\
  (forall id, updateTimeout s = Some id -> (id < nextTimer s)%positive).

(** What the ['change'] listeners leave alone. *)
Definition same_document (s s' : State) : Prop :=
  activeTab s' = activeTab s /\ content s' = content s /\
  invoked s' = invoked s /\ now s' = now s /\ listeners s' = listeners s /\
  value (editor s') = value (editor s) /\ mode (editor s') = mode (editor s).

(** The states reached from a fresh editor by installing listeners and
    handling events. *)
Inductive reachable : State -> Prop :=
| reach_new c t : reachable (constructor c t)
| reach_onChange s cb ms : reachable s -> reachable (onChange cb ms s)
| reach_step s t e s' : reachable s -> step t e s = Some s' -> reachable s'.

(** ** Both buffers at once *)

(** [getAllContent()]: the widget's text is first saved into the slot of
    the active buffer; the result is a copy of the two slots. *)
Definition getAllContent (s : State) : Content * State :=
  let s1 := with_content (setBuffer (content s) (activeTab s) (getValue s)) s in
  (content s1, s1).

Definition getActiveTab (s : State) : TabKind := activeTab s.

(** ** Completion of [#include] paths *)

(** [this.lygiaGlob], the list of library paths ([None] for [null], until
    it has arrived), and the addresses [getJSON] was asked for. *)
Record Completion := mkCompletion {
  lygiaGlob : option (list string);
  requests : list string
}.

(** What [CodeMirror.showHint] is given: the proposals, and the columns of
    the text they replace. *)
Record Hint := mkHint {
  hint_list : list string;
  hint_from : Z;
  hint_to : nat
}.

(** The order of [Array.prototype.sort] without a comparator, on strings:
    by code units. *)
Definition str_le (a b : string) : Prop := String.leb a b = true.

Global Instance str_le_dec : RelDecision str_le.
Proof. intros a b. unfold str_le. apply _. Defined.

Definition double_quote : ascii := ascii_of_nat 34.

(** The proposal for a path [w]: [#include], a space, and [w] between
    double quotes. *)
Definition include_directive (w : string) : string :=
  ("#include " ++ String double_quote (w ++ String double_quote EmptyString))%string.

(** [line.indexOf(s)] *)
Definition indexOf (s line : string) : Z :=
  match index 0 s line with
  | Some i => Z.of_nat i
  | None => -1
  end.

(** The ['inputRead'] listener, the cursor being at column [ch] of [line].
    The list requested here arrives later: the proposals are computed from
    [lygiaGlob] as it is now. *)
Definition inputRead (line : string) (ch : nat) (c : Completion)
    : option Hint * Completion :=
  if String.prefix "#include" (trim line)
  then
    let path := substring 10 (String.length line - 10) line in
    let c' := match lygiaGlob c with
              | None => {| lygiaGlob := None;
                           requests := requests c ++ ["https://lygia.xyz/glsl.json"%string] |}
              | Some _ => c
              end in
    let result :=
      match lygiaGlob c with
      | Some glob =>
          merge_sort str_le
            (include_directive <$> List.filter (fun w => String.prefix path w) glob)
      | None => []
      end in
    match result with
    | [] => (None, c')
    | _ :: _ =>
        let start := indexOf "#include" line in
        let end_ := if (ch <? String.length line)%nat &&
                       bool_decide (String.get ch line = Some double_quote)
                    then S ch else ch in
        (Some {| hint_list := result; hint_from := start; hint_to := end_ |}, c')
    end
  else (None, c).

(** The callback given to [getJSON], run when the answer has loaded with
    [status] and parsed body [response] ([None] when it is [null]). *)
Definition onManifest (status : nat) (response : option (list string))
    (c : Completion) : Completion :=
  if (status =? 200)%nat
  then {| lygiaGlob := response; requests := requests c |}
  else c.

End Editor.

(* ===================================================================== *)
(** * glslviewer.js: [GlslViewerIntegration] *)
(* ===================================================================== *)

Module Bridge.

Definition cmds_state : list string :=
  ["plot"; "textures"; "buffers"; "floor"; "cubemap"; "axis"; "grid";
   "bboxes"; "fullscreen"].
Definition cmds_plot_modes : list string := ["off"; "fps"; "rgb"; "luma"].
Definition cmds_camera : list string :=
  ["camera_position"; "camera_look_at"; "camera"].
Definition cmds_listen : list string :=
  ["plane"; "pcl_plane"; "sphere"; "pcl_sphere"; "icosphere"; "cylinder"].

(** ** Strings and arrays of the language *)

(** [cmd.startsWith(c)] *)
Definition startsWith (cmd c : string) : bool := String.prefix c cmd.

(** [s.split(sep)] for a one-character separator: never empty. *)
Fixpoint split (sep : ascii) (s : string) : list string :=
  match s with
  | EmptyString => [EmptyString]
  | String a r =>
      let l := split sep r in
      if Ascii.eqb a sep then EmptyString :: l
      else match l with
           | x :: t => String a x :: t
           | [] => [String a EmptyString]
           end
  end.

(** [l.pop()] as a value: the last element. *)
Definition pop (l : list string) : string := List.last l EmptyString.

(** [toLowerCase] on 8-bit code units: A-Z, and the capital letters of
    Latin-1 (all of 192..222 but the multiplication sign 215). *)
Definition lower_ascii (c : ascii) : ascii :=
  let n := nat_of_ascii c in
  if ((65 <=? n) && (n <=? 90) ||
      (192 <=? n) && (n <=? 222) && negb (n =? 215))%nat
  then ascii_of_nat (n + 32) else c.

Fixpoint toLowerCase (s : string) : string :=
  match s with
  | EmptyString => EmptyString
  | String c r => String (lower_ascii c) (toLowerCase r)
  end.

(** A [Set] of strings keeps its elements in insertion order. *)
Definition Set_add (s : list string) (x : string) : list string :=
  if decide (x ∈ s) then s else s ++ [x].

(** [[...new Set(l)]] *)
Definition new_Set (l : list string) : list string := fold_left Set_add l [].

(** ** The page and the execution module *)

(** [window.Module], as far as the bridge uses it: [ccall] and [FS] when the
    module defines them.  What the module answers is not the bridge's
    business: [ccall] maps an entry point and its arguments to the string
    (or [null]) it returns, or to the exception it throws, and
    [FS.writeFile] either succeeds or throws. *)
Record ModuleObj := mkModule {
  ccall : option (string -> list string -> Outcome (option string));
  FS : option (string -> list Z -> Outcome unit)
}.

Record Window := mkWindow {
  window_Module : option ModuleObj;
  module_loaded : bool
}.

(** What the bridge does to the world around it, in order. *)
Inductive Effect :=
| CCall (fn : string) (args : list string)     (* a call into the module *)
| WriteFile (name : string) (data : list Z)    (* a file written to its FS *)
| LogCallback (msg : string) (isError : bool)  (* this.logCallback *)
| ConsoleLog (msg : string)
| ConsoleError (msg : string)
| UpdateLoader (msg : string).                 (* updateLoaderCallback *)

(** The bridge object and its surroundings.  Arrays live in [heap] and are
    held by reference: [cmdsHistory] is the address of the array
    [this.cmdsHistory]. *)
Record World := mkWorld {
  window : Window;
  heap : gmap nat (list string);
  cmdsHistory : nat;
  externalAssets : list (string * string);
  trace : list Effect
}.

Definition with_window (x : Window) (w : World) : World :=
  mkWorld x (heap w) (cmdsHistory w) (externalAssets w) (trace w).
Definition with_heap (h : gmap nat (list string)) (w : World) : World :=
  mkWorld (window w) h (cmdsHistory w) (externalAssets w) (trace w).
Definition with_externalAssets (a : list (string * string)) (w : World) : World :=
  mkWorld (window w) (heap w) (cmdsHistory w) a (trace w).
Definition with_trace (t : list Effect) (w : World) : World :=
  mkWorld (window w) (heap w) (cmdsHistory w) (externalAssets w) t.

(** [new GlslViewerIntegration(logCallback)] on a page [win]. *)
Definition constructor (win : Window) : World :=
  {| window := win;
     heap := {[ 0%nat := [] ]};
     cmdsHistory := 0%nat;
     externalAssets := [];
     trace := [] |}.

(** Whether a property holds an object. *)
Definition defined {A : Type} (x : option A) : bool :=
  match x with
  | Some _ => true
  | None => false
  end.

(** The array at an address. *)
Definition array_at (w : World) (l : nat) : list string :=
  default [] (heap w !! l).

(** ** Synchronous code: state and exceptions *)

Definition M (A : Type) : Type := World -> Outcome A * World.

Definition ret {A : Type} (a : A) : M A := fun w => (Ok a, w).
Definition bind {A B : Type} (m : M A) (f : A -> M B) : M B :=
  fun w => match m w with
           | (Ok a, w') => f a w'
           | (Exn e, w') => (Exn e, w')
           end.
Definition throw {A : Type} (e : string) : M A := fun w => (Exn e, w).
Definition try_catch {A : Type} (body : M A) (handler : string -> M A) : M A :=
  fun w => match body w with
           | (Ok a, w') => (Ok a, w')
           | (Exn e, w') => handler e w'
           end.

Declare Scope js_scope.
Delimit Scope js_scope with js.
Notation "'let*' x ':=' m 'in' k" := (bind m (fun x => k))
  (at level 10, x name, m at level 100, k at level 200) : js_scope.
Notation "m '>>' k" := (bind m (fun _ => k))
  (at level 65, right associativity) : js_scope.
Local Open Scope js_scope.

Definition get : M World := fun w => (Ok w, w).
Definition emit (e : Effect) : M unit :=
  fun w => (Ok tt, with_trace (trace w ++ [e]) w).
Definition when (b : bool) (m : M unit) : M unit := if b then m else ret tt.

(** [[...a]] and array literals: a new array. *)
Definition alloc (a : list string) : M nat :=
  fun w => let l := fresh (dom (heap w)) in
           (Ok l, with_heap (<[l := a]> (heap w)) w).
(** [a.push(x)] on the array at [l]. *)
Definition push (l : nat) (x : string) : M unit :=
  fun w => (Ok tt, with_heap (alter (fun a => a ++ [x]) l (heap w)) w).
Definition read (l : nat) : M (list string) :=
  fun w => (Ok (array_at w l), w).

Fixpoint forEach {A : Type} (l : list A) (f : A -> M unit) : M unit :=
  match l with
  | [] => ret tt
  | x :: r => f x >> forEach r f
  end.

Definition logCallback (msg : string) (isError : bool) : M unit :=
  emit (LogCallback msg isError).

(** [window.Module && window.Module.ccall] *)
Definition has_ccall (win : Window) : bool :=
  match window_Module win with
  | Some m => defined (ccall m)
  | None => false
  end.

(** [window.Module.ccall(fn, ..., args)]: a [TypeError] when there is
    nothing to call. *)
Definition Module_ccall (fn : string) (args : list string) : M (option string) :=
  fun w =>
    match window_Module (window w) with
    | Some m =>
        match ccall m with
        | Some f => (f fn args, with_trace (trace w ++ [CCall fn args]) w)
        | None => (Exn "TypeError: window.Module.ccall is not a function", w)
        end
    | None => (Exn "TypeError: window.Module is undefined", w)
    end.

(** [window.Module.FS.writeFile(name, data)] *)
Definition FS_writeFile (name : string) (data : list Z) : M unit :=
  fun w =>
    match window_Module (window w) with
    | Some m =>
        match FS m with
        | Some write =>
            match write name data with
            | Ok _ => (Ok tt, with_trace (trace w ++ [WriteFile name data]) w)
            | Exn e => (Exn e, w)
            end
        | None => (Exn "TypeError: window.Module.FS is undefined", w)
        end
    | None => (Exn "TypeError: window.Module is undefined", w)
    end.

(** ** The methods *)


Definition sendCommand (cmd : string) : M unit :=
  when (existsb (startsWith cmd) cmds_listen)
       (emit (ConsoleLog ("Command added to history: " ++ cmd)) >>
        let* w := get in push (cmdsHistory w) cmd) >>
  logCallback ("> " ++ cmd) false >>
  let* w := get in
  if has_ccall (window w)
  then try_catch (Module_ccall "command" [cmd] >> ret tt)
                 (fun err => logCallback ("Error sending command: " ++ err) true)
  else logCallback "Module not ready." true.

Definition query (cmd : string) : M (option string) :=
  let* w := get in
  if has_ccall (window w)
  then try_catch (Module_ccall "query" [cmd])
                 (fun err =>
                    emit (ConsoleError ("Error querying " ++ cmd ++ ": " ++ err)) >>
                    ret None)
  else ret None.

Definition cmds_to_check : list string := new_Set (cmds_state ++ cmds_camera).

(** The function [getRetainedState] runs on each toggle, [results] being
    the address of the array it fills. *)
Definition check_cmd (results : nat) (cmd : string) : M unit :=
  let* answer := query cmd in
  match answer with
  | Some a => when (truthy answer) (push results (cmd ++ "," ++ a))
  | None => ret tt
  end.

(** Returns the address of the array it built. *)
Definition getRetainedState : M nat :=
  let* w := get in
  let* h := read (cmdsHistory w) in
  let* results := alloc h in
  forEach cmds_to_check (check_cmd results) >>
  let* r := read results in
  let* results := alloc (new_Set r) in
  ret results.

Definition setFrag (code : string) : M unit :=
  let* w := get in
  when (has_ccall (window w))
       (try_catch (Module_ccall "setFrag" [code] >> ret tt)
                  (fun e => emit (ConsoleError ("Error setting fragment shader: " ++ e)))).

Definition setVert (code : string) : M unit :=
  let* w := get in
  when (has_ccall (window w))
       (try_catch (Module_ccall "setVert" [code] >> ret tt)
                  (fun e => emit (ConsoleError ("Error setting vertex shader: " ++ e)))).



Definition getCmdsHistory : M nat := let* w := get in ret (cmdsHistory w).

(** What [query] returns on a page, the trace aside. *)
Definition query_answer (win : Window) (cmd : string) : option string :=
  match window_Module win with
  | Some m =>
      match ccall m with
      | Some f => match f "query" [cmd] with
                  | Ok a => a
                  | Exn _ => None
                  end
      | None => None
      end
  | None => None
  end.

(** The [name,value] pair of a toggle, when the module answers its query
    with a non-empty value. *)
Definition derived_pair (win : Window) (cmd : string) : option string :=
  match query_answer win cmd with
  | Some a => if truthy (Some a) then Some (cmd ++ "," ++ a)%string else None
  | None => None
  end.

Definition derived_pairs (win : Window) : list string :=
  omap (derived_pair win) cmds_to_check.

(** The calls into the module recorded in a trace. *)
Definition module_calls (t : list Effect) : list Effect :=
  List.filter (fun e => match e with
                        | CCall _ _ | WriteFile _ _ => true
                        | _ => false
                        end) t.

(** ** Asset loading *)

(** What an asset load waits for: a timer, or the network. *)
Inductive Req :=
| Timeout (ms : nat)
| Fetch (url : string)
| ArrayBuffer (url : string).

(** A response as [downloadAsset] reads it. *)
Record Response := mkResponse {
  ok : bool;
  statusText : string;
  status : string
}.

(** The reply to a request: a timer just fires; a fetch yields a response
    or is rejected; reading the body yields the bytes or is rejected. *)
Definition Rep (q : Req) : Type :=
  match q with
  | Timeout _ => unit
  | Fetch _ => Outcome Response
  | ArrayBuffer _ => Outcome (list Z)
  end.

Definition Async (A : Type) : Type := Task World Req Rep A.

(** A synchronous stretch inside an asynchronous computation. *)
Definition lift {A : Type} (m : M A) : Async A :=
  fun w => match m w with
           | (Ok a, w') => Returned w' a
           | (Exn e, w') => Thrown w' e
           end.

(** [window.Module && window.Module.FS && window.module_loaded] *)
Definition fs_ready (win : Window) : bool :=
  match window_Module win with
  | Some m => defined (FS m) && module_loaded win
  | None => false
  end.

(** The [try] block of [tryWrite] with its [catch]; [resolve()] follows on
    both paths.  [updateLoaderCallback] tells whether the caller passed
    one. *)
Definition writeAsset (name : string) (data : list Z)
    (updateLoaderCallback : bool) : M unit :=
  try_catch
    (when updateLoaderCallback (emit (UpdateLoader ("Loading " ++ name))) >>
     FS_writeFile name data >>
     logCallback ("Loaded asset: " ++ name) false >>
     let ext := toLowerCase (pop (split "." name)) in
     Module_ccall "loadAsset" [name; ext] >>
     when (existsb (String.eqb ext) ["hdr"]) (sendCommand "cubemap,on"))
    (fun e => emit (ConsoleError ("FS error " ++ e))).

(** [tryWrite], entered with the counter at [attempts]. *)
Equations? tryWrite (name : string) (data : list Z) (updateLoaderCallback : bool)
    (attempts : nat) : Async unit by wf (21 - attempts)%nat lt :=
tryWrite name data updateLoaderCallback attempts
  with le_lt_dec (S attempts) 20 := {
  | right _ =>
      lift (emit (ConsoleError "Timeout waiting for WASM filesystem"))
  | left _ =>
      fun w =>
        if fs_ready (window w)
        then lift (writeAsset name data updateLoaderCallback) w
        else Awaiting w (Timeout 500)
               (fun _ w' => tryWrite name data updateLoaderCallback (S attempts) w') }.
Proof. lia. Qed.

Definition loadToWasm (name : string) (data : list Z)
    (updateLoaderCallback : bool) : Async unit :=
  tryWrite name data updateLoaderCallback 0.

Section Batch.

(** [window.atob] followed by the copy into a byte array: the decoded
    bytes, or the exception [atob] throws on text that is not base64. *)
Variable atob : string -> Outcome (list Z).

(** [dataUrl.split(',')[1]] is [undefined] when there is no comma, which
    [atob] reads as the text "undefined". *)
Definition decodeBase64 (dataUrl : string) : Outcome (list Z) :=
  match split "," dataUrl with
  | _ :: base64 :: _ => atob base64
  | _ => atob "undefined"
  end.

Definition downloadAsset (url : string) : Async (list Z) :=
  task_bind (Rep := Rep) (await (Fetch url)) (fun res =>
  match res with
  | Exn e => task_throw e
  | Ok res =>
      if negb (ok res)
      then task_throw (statusText res ++ " (" ++ status res ++ ") " ++ url)
      else task_bind (Rep := Rep) (await (ArrayBuffer url)) (fun buffer =>
           match buffer with
           | Exn e => task_throw e
           | Ok bytes => task_ret bytes
           end)
  end).

(** The promise [loadAssetsFromGist] makes for one asset. *)
Definition assetPromise (name url : string) (updateLoaderCallback : bool)
    : Async unit :=
  if startsWith url "data:"
  then match decodeBase64 url with
       | Ok data => loadToWasm name data updateLoaderCallback
       | Exn e => lift (emit (ConsoleError ("Error decoding base64 " ++ e)))
       end
  else task_catch (Rep := Rep)
         (task_bind (Rep := Rep) (downloadAsset url)
            (fun data => loadToWasm name data updateLoaderCallback))
         (fun err =>
            lift (logCallback ("Error loading asset " ++ name ++ ": " ++ err) true)).

(** The loop of [loadAssetsFromGist]: each promise is made, and runs up to
    its first wait, before the next one is. *)
Fixpoint start_all (assets : list (string * string)) (updateLoaderCallback : bool)
    (w : World) : list (Run World Req Rep unit) * World :=
  match assets with
  | [] => ([], w)
  | (name, url) :: rest =>
      let r := assetPromise name url updateLoaderCallback w in
      let (rs, w') := start_all rest updateLoaderCallback (state_of r) in
      (r :: rs, w')
  end.

(** The promises [Promise.all] waits for, and the page they share. *)
Record Pending := mkPending {
  promises : list (Run World Req Rep unit);
  page : World
}.

Definition loadAssetsFromGist (assets : list (string * string))
    (updateLoaderCallback : bool) (w : World) : Pending :=
  let (rs, w') := start_all assets updateLoaderCallback
                    (with_externalAssets assets w) in
  {| promises := rs; page := w' |}.

End Batch.

(** What can happen while [Promise.all] waits: a reply resumes one of the
    promises, or something else changes the page. *)
Inductive pending_step : Pending -> Pending -> Prop :=
| resume_one b i s q k (rep : Rep q) :
    promises b !! i = Some (Awaiting s q k) ->
    pending_step b {| promises := <[i := k rep (page b)]> (promises b);
                      page := state_of (k rep (page b)) |}
| page_changes b (f : World -> World) :
    pending_step b {| promises := promises b; page := f (page b) |}.

(** [Promise.all] rejects as soon as one of its promises does. *)
Definition all_rejected (b : Pending) : Prop :=
  exists s e, Thrown s e ∈ promises b.

(** The world at the [i]-th readiness check, while no check has passed. *)
Fixpoint world_at (env : nat -> World -> World) (w : World) (i : nat) : World :=
  match i with
  | O => w
  | S j => env j (world_at env w j)
  end.

(** The promise settling while the rest of the page goes on: [env i] is what
    happens to the world during the [i]-th wait, [answer i] the reply that
    ends it, and [fuel] bounds the number of waits.  The result is the
    number of waits it took, whether the promise resolved, and the final
    world. *)
Fixpoint settle (fuel : nat) (env : nat -> World -> World)
    (answer : nat -> forall q, Rep q) (i : nat) (r : Run World Req Rep unit)
    : option (nat * bool * World) :=
  match r with
  | Returned w _ => Some (i, true, w)
  | Thrown w _ => Some (i, false, w)
  | Awaiting w q k =>
      match fuel with
      | O => None
      | S fuel' => settle fuel' env answer (S i) (k (answer i q) (env i w))
      end
  end.

(** Whether [sendCommand] records a command in the history: it starts with
    an entry of [cmds_listen]. *)
Definition recorded (cmd : string) : bool := existsb (startsWith cmd) cmds_listen.

(** [a.join(sep)] on strings. *)
Fixpoint join (sep : string) (l : list string) : string :=
  match l with
  | [] => EmptyString
  | [x] => x
  | x :: r => (x ++ sep ++ join sep r)%string
  end.

(** Whether a character occurs in a string. *)
Fixpoint occurs (c : ascii) (s : string) : bool :=
  match s with
  | EmptyString => false
  | String a r => Ascii.eqb a c || occurs c r
  end.

End Bridge.

(* ===================================================================== *)
(** * github.js: [GitHubIntegration] *)
(* ===================================================================== *)

Module GitHub.

(** ** Data *)

Record Owner := mkOwner {
  login : string;
  id : Z;
  avatar_url : string
}.

(** An entry of the derivation history; [stamp] is its [loadedAt] or
    [savedAt]. *)
Record HistoryEntry := mkEntry {
  gistId : string;
  owner : option Owner;
  stamp : string
}.

(** The shader project stored in a gist; a field is [None] when absent
    ([history] also when it is not an array). *)
Record Project := mkProject {
  frag : option string;
  vert : option string;
  commands : option (list string);
  assets : option (list (string * string));
  history : option (list HistoryEntry)
}.

Record GistFile := mkFile {
  truncated : bool;
  raw_url : string;
  content : string
}.

(** The body of [GET /gists/{id}]; [files] in the order of its keys. *)
Record GistData := mkGist {
  g_owner : option Owner;
  files : list (string * GistFile)
}.

(** The body of [GET /users/{login}]. *)
Record UserData := mkUserData {
  u_login : string;
  u_name : option string;
  u_avatar_url : string;
  u_blog : option string;
  u_html_url : string
}.

(** What [fetchGitHubUserInfo] returns. *)
Record UserInfo := mkUserInfo {
  i_login : string;
  i_name : string;
  i_avatar_url : string;
  i_blog : string;
  i_html_url : string
}.

(** The body of a successful [POST /gists]. *)
Record Saved := mkSaved {
  s_id : string;
  s_owner : option Owner
}.

Record Authors := mkAuthors {
  first : option UserInfo;
  firstGistId : option string;
  last : option UserInfo;
  lastGistId : option string
}.

Record Response := mkResponse {
  ok : bool;
  statusText : string
}.

(** The object [saveGist] posts. *)
Record PostData := mkPost {
  description : string;
  public : bool;
  post_files : list (string * string)
}.

(** The second argument of [fetch], when there is one: the method, the
    [Authorization] header, and the posted object. *)
Record Init := mkInit {
  method : string;
  authorization : string;
  body : PostData
}.

(** The callbacks object of [loadGist]: which callbacks the caller gave. *)
Record Callbacks := mkCallbacks {
  onStart : bool;
  onUpdate : bool;
  onSuccess : bool;
  onError : bool
}.

(** What the client does to the world around it, in order. *)
Inductive Effect :=
| Request (url : string) (init : option Init)   (* a fetch is issued *)
| Alert (msg : string)
| ConsoleLog (msg : string)
| ConsoleWarn (msg : string)
| ConsoleError (msg : string)
| UpdateAuthorInfo (a : Authors)                (* the attribution panel *)
| CbStart
| CbUpdate (msg : string)
| CbSuccess (json : Project)
| CbError (msg : string).

(** [localStorage], under its two fixed keys. *)
Record Storage := mkStorage {
  github_token : option string;
  gist_history : option (list HistoryEntry)
}.

(** The client object and its surroundings; [clock] is what
    [new Date().toISOString()] reads. *)
Record State := mkState {
  token : option string;
  user : option string;
  currentGistId : option string;
  gistHistory : list HistoryEntry;
  currentGistAuthors : Authors;
  localStorage : Storage;
  clock : string;
  trace : list Effect
}.

Definition with_token (x : option string) (s : State) : State :=
  mkState x (user s) (currentGistId s) (gistHistory s) (currentGistAuthors s)
          (localStorage s) (clock s) (trace s).
Definition with_user (x : option string) (s : State) : State :=
  mkState (token s) x (currentGistId s) (gistHistory s) (currentGistAuthors s)
          (localStorage s) (clock s) (trace s).
Definition with_currentGistId (x : option string) (s : State) : State :=
  mkState (token s) (user s) x (gistHistory s) (currentGistAuthors s)
          (localStorage s) (clock s) (trace s).
Definition with_gistHistory (x : list HistoryEntry) (s : State) : State :=
  mkState (token s) (user s) (currentGistId s) x (currentGistAuthors s)
          (localStorage s) (clock s) (trace s).
Definition with_currentGistAuthors (x : Authors) (s : State) : State :=
  mkState (token s) (user s) (currentGistId s) (gistHistory s) x
          (localStorage s) (clock s) (trace s).
Definition with_localStorage (x : Storage) (s : State) : State :=
  mkState (token s) (user s) (currentGistId s) (gistHistory s)
          (currentGistAuthors s) x (clock s) (trace s).
Definition with_trace (x : list Effect) (s : State) : State :=
  mkState (token s) (user s) (currentGistId s) (gistHistory s)
          (currentGistAuthors s) (localStorage s) (clock s) x.

(** ** Suspension points *)

Inductive Req :=
| Fetch (url : string) (init : option Init)
| ReadGist          (* response.json() of a gist *)
| ReadText          (* rawResponse.text() *)
| ReadUser          (* response.json() of a user profile *)
| ReadSaved.        (* response.json() of a created gist *)

(** The remote API answers in its documented shape, or the promise is
    rejected. *)
Definition Rep (q : Req) : Type :=
  match q with
  | Fetch _ _ => Outcome Response
  | ReadGist => Outcome GistData
  | ReadText => Outcome string
  | ReadUser => Outcome UserData
  | ReadSaved => Outcome Saved
  end.

(** A reply to whatever request is outstanding. *)
Definition Reply : Type := forall q, Rep q.

Definition Async (A : Type) : Type := Task State Req Rep A.

Declare Scope async_scope.
Delimit Scope async_scope with async.
Notation "'let*' x ':=' m 'in' k" := (task_bind (Rep := Rep) m (fun x => k))
  (at level 10, x name, m at level 100, k at level 200) : async_scope.
Notation "m '>>' k" := (task_bind (Rep := Rep) m (fun _ => k))
  (at level 65, right associativity) : async_scope.
Local Open Scope async_scope.

Definition ret {A : Type} (a : A) : Async A := task_ret a.
Definition throw {A : Type} (e : string) : Async A := task_throw e.
Definition get : Async State := fun s => Returned s s.
Definition modify (f : State -> State) : Async unit := fun s => Returned (f s) tt.
Definition emit (e : Effect) : Async unit :=
  modify (fun s => with_trace (trace s ++ [e]) s).
Definition when (b : bool) (m : Async unit) : Async unit := if b then m else ret tt.

(** [await fetch(url, init)] *)
Definition fetch (url : string) (init : option Init) : Async Response :=
  emit (Request url init) >>
  let* r := await (Rep := Rep) (Fetch url init) in
  match r with
  | Ok resp => ret resp
  | Exn e => throw e
  end.

Definition read_gist : Async GistData :=
  let* r := await (Rep := Rep) ReadGist in
  match r with Ok d => ret d | Exn e => throw e end.
Definition read_text : Async string :=
  let* r := await (Rep := Rep) ReadText in
  match r with Ok d => ret d | Exn e => throw e end.
Definition read_user : Async UserData :=
  let* r := await (Rep := Rep) ReadUser in
  match r with Ok d => ret d | Exn e => throw e end.

Definition try_catch {A : Type} (m : Async A) (h : string -> Async A) : Async A :=
  task_catch (Rep := Rep) m h.

(** ** Strings *)

Definition endsWith (s suffix : string) : bool :=
  let n := String.length s in
  let m := String.length suffix in
  (m <=? n)%nat && String.eqb (substring (n - m) m s) suffix.


Definition is_digit (c : ascii) : bool :=
  let n := nat_of_ascii c in ((48 <=? n) && (n <=? 57))%nat.

Fixpoint all_digits (s : string) : bool :=
  match s with
  | EmptyString => true
  | String c r => is_digit c && all_digits r
  end.

(** [x || y] on strings. *)
Definition or_else (x : option string) (y : string) : string :=
  match x with
  | Some v => if truthy x then v else y
  | None => y
  end.

(** ** History *)

(** [findIndex(h => h.gistId === id)], then replace in place or [push]. *)
Definition upsert (e : HistoryEntry) (h : list HistoryEntry) : list HistoryEntry :=
  match list_find (fun x => gistId x = gistId e) h with
  | Some (i, _) => <[i := e]> h
  | None => h ++ [e]
  end.

Definition saveGistHistory : Async unit :=
  modify (fun s =>
            with_localStorage
              {| github_token := github_token (localStorage s);
                 gist_history := Some (gistHistory s) |} s) >>
  emit (ConsoleLog "Saved gist history to localStorage").

Definition logout : Async unit :=
  modify (fun s =>
            with_localStorage
              {| github_token := None;
                 gist_history := gist_history (localStorage s) |}
              (with_user None (with_token None s))).

Definition getGistHistory (s : State) : list HistoryEntry := gistHistory s.

Definition fetchGitHubUserInfo (usernameOrId : string) : Async (option UserInfo) :=
  try_catch
    (let url : string :=
       if all_digits usernameOrId && negb (String.eqb usernameOrId "")
       then "https://api.github.com/user/" +:+ usernameOrId
       else "https://api.github.com/users/" +:+ usernameOrId in
     let* response := fetch url None in
     if negb (ok response)
     then emit (ConsoleWarn ("Failed to fetch user info for: " ++ usernameOrId)) >>
          ret None
     else
       let* user := read_user in
       ret (Some {| i_login := u_login user;
                    i_name := or_else (u_name user) (u_login user);
                    i_avatar_url := u_avatar_url user;
                    i_blog := or_else (u_blog user)
                                      ("https://github.com/" ++ u_login user);
                    i_html_url := u_html_url user |}))
    (fun error =>
       emit (ConsoleError ("Error fetching GitHub user info: " ++ error)) >>
       ret None).

(** The attribution panel is redrawn from the authors as they are now. *)
Definition updateAuthorInfo : Async unit :=
  let* s := get in emit (UpdateAuthorInfo (currentGistAuthors s)).




Section Json.

(** [JSON.parse] of a gist's payload: a project, [null] (here [None]), or a
    syntax error.  [JSON.stringify] of a project: its text, or an
    exception. *)
Variable JSON_parse : string -> Outcome (option Project).
Variable JSON_stringify : Project -> Outcome string.

(** [data.files['shader.json']], else the first file whose name ends in
    [.json]. *)
Definition find_shaderFile (data : GistData) : option GistFile :=
  match list_find (fun p => fst p = "shader.json") (files data) with
  | Some (_, (_, f)) => Some f
  | None =>
      match list_find (fun p => endsWith (fst p) ".json" = true) (files data) with
      | Some (_, (_, f)) => Some f
      | None => None
      end
  end.

(** The [try] block of [loadGist]. *)
Definition loadGist_body (id : string) (callbacks : Callbacks) : Async unit :=
  let* response := fetch ("https://api.github.com/gists/" ++ id) None in
  if negb (ok response) then throw (statusText response)
  else
    let* data := read_gist in
    let* s := get in
    let currentGistOwnerInfo :=
      {| gistId := id; owner := g_owner data; stamp := clock s |} in
    match find_shaderFile data with
    | None => throw "No valid shader JSON found in Gist"
    | Some shaderFile =>
        let* jsonContent :=
          if truncated shaderFile
          then when (onUpdate callbacks) (emit (CbUpdate "Fetching raw Gist content...")) >>
               let* rawResponse := fetch (raw_url shaderFile) None in
               read_text
          else ret (content shaderFile) in
        match JSON_parse jsonContent with
        | Exn e => throw e
        | Ok None => throw "TypeError: json is null"
        | Ok (Some json) =>
            (match history json with
             | Some h =>
                 modify (with_gistHistory h) >>
                 emit (ConsoleLog "Loaded gist history from JSON")
             | None =>
                 modify (with_gistHistory []) >>
                 emit (ConsoleLog "No history found in gist JSON, starting with empty history")
             end) >>
            modify (fun s => with_gistHistory (upsert currentGistOwnerInfo (gistHistory s)) s) >>
            saveGistHistory >>
            let* s := get in
            let firstOwner :=
              match gistHistory s with
              | e :: _ => match owner e with
                          | Some o => Some o
                          | None => owner currentGistOwnerInfo
                          end
              | [] => owner currentGistOwnerInfo
              end in
            let firstGistId_ :=
              match gistHistory s with
              | e :: _ => or_else (Some (gistId e)) id
              | [] => id
              end in
            let lastOwner := owner currentGistOwnerInfo in
            let lastGistId_ := id in
            (match lastOwner with
             | Some o =>
                 let* info := fetchGitHubUserInfo (login o) in
                 modify (fun s =>
                           with_currentGistAuthors
                             {| first := first (currentGistAuthors s);
                                firstGistId := firstGistId (currentGistAuthors s);
                                last := info;
                                lastGistId := Some lastGistId_ |} s)
             | None => ret tt
             end) >>
            (match firstOwner with
             | Some o =>
                 when (truthy (Some (login o)))
                   (let* info := fetchGitHubUserInfo (login o) in
                    modify (fun s =>
                              with_currentGistAuthors
                                {| first := info;
                                   firstGistId := Some firstGistId_;
                                   last := last (currentGistAuthors s);
                                   lastGistId := lastGistId (currentGistAuthors s) |} s))
             | None => ret tt
             end) >>
            updateAuthorInfo >>
            when (onSuccess callbacks) (emit (CbSuccess json))
        end
    end.

(** The [catch] block of [loadGist]. *)
Definition loadGist_catch (callbacks : Callbacks) (error : string) : Async unit :=
  emit (ConsoleError ("Error loading Gist: " ++ error)) >>
  modify (with_currentGistId None) >>
  when (onError callbacks) (emit (CbError error)).

Definition loadGist (id : string) (callbacks : Callbacks) : Async unit :=
  let* s := get in
  if bool_decide (currentGistId s = Some id)
  then emit (ConsoleLog ("Gist " ++ id ++ " already loading/loaded."))
  else
    modify (with_currentGistId (Some id)) >>
    when (onStart callbacks) (emit CbStart) >>
    emit (ConsoleLog ("Loading Gist: " ++ id)) >>
    try_catch (loadGist_body id callbacks) (loadGist_catch callbacks).

(** The address [loadGist] fetches. *)
Definition gist_url (id : string) : string := "https://api.github.com/gists/" ++ id.


(** The ways a load fails while fetching or parsing, as scripts of replies
    with the message reported: the fetch is rejected; the answer is not a
    success; its body cannot be read; it holds no shader file; the file's
    text does not parse, or parses to [null]; and, for a truncated file,
    the same for the fetch of the raw text. *)
Inductive load_fails (id : string)
    : list ((State -> State) * Reply) -> string -> Prop :=
| fails_fetch f (rep : Reply) e :
    rep (Fetch (gist_url id) None) = Exn e ->
    load_fails id [(f, rep)] e
| fails_status f (rep : Reply) resp :
    rep (Fetch (gist_url id) None) = Ok resp -> ok resp = false ->
    load_fails id [(f, rep)] (statusText resp)
| fails_json f1 (rep1 : Reply) f2 (rep2 : Reply) resp e :
    rep1 (Fetch (gist_url id) None) = Ok resp -> ok resp = true ->
    rep2 ReadGist = Exn e ->
    load_fails id [(f1, rep1); (f2, rep2)] e
| fails_no_file f1 (rep1 : Reply) f2 (rep2 : Reply) resp data :
    rep1 (Fetch (gist_url id) None) = Ok resp -> ok resp = true ->
    rep2 ReadGist = Ok data -> find_shaderFile data = None ->
    load_fails id [(f1, rep1); (f2, rep2)] "No valid shader JSON found in Gist"
| fails_parse f1 (rep1 : Reply) f2 (rep2 : Reply) resp data file e :
    rep1 (Fetch (gist_url id) None) = Ok resp -> ok resp = true ->
    rep2 ReadGist = Ok data -> find_shaderFile data = Some file ->
    truncated file = false -> JSON_parse (content file) = Exn e ->
    load_fails id [(f1, rep1); (f2, rep2)] e
| fails_null f1 (rep1 : Reply) f2 (rep2 : Reply) resp data file :
    rep1 (Fetch (gist_url id) None) = Ok resp -> ok resp = true ->
    rep2 ReadGist = Ok data -> find_shaderFile data = Some file ->
    truncated file = false -> JSON_parse (content file) = Ok None ->
    load_fails id [(f1, rep1); (f2, rep2)] "TypeError: json is null"
| fails_raw_fetch f1 (rep1 : Reply) f2 (rep2 : Reply) f3 (rep3 : Reply)
    resp data file e :
    rep1 (Fetch (gist_url id) None) = Ok resp -> ok resp = true ->
    rep2 ReadGist = Ok data -> find_shaderFile data = Some file ->
    truncated file = true -> rep3 (Fetch (raw_url file) None) = Exn e ->
    load_fails id [(f1, rep1); (f2, rep2); (f3, rep3)] e
| fails_raw_text f1 (rep1 : Reply) f2 (rep2 : Reply) f3 (rep3 : Reply) f4 (rep4 : Reply)
    resp data file raw e :
    rep1 (Fetch (gist_url id) None) = Ok resp -> ok resp = true ->
    rep2 ReadGist = Ok data -> find_shaderFile data = Some file ->
    truncated file = true -> rep3 (Fetch (raw_url file) None) = Ok raw ->
    rep4 ReadText = Exn e ->
    load_fails id [(f1, rep1); (f2, rep2); (f3, rep3); (f4, rep4)] e
| fails_raw_parse f1 (rep1 : Reply) f2 (rep2 : Reply) f3 (rep3 : Reply) f4 (rep4 : Reply)
    resp data file raw text e :
    rep1 (Fetch (gist_url id) None) = Ok resp -> ok resp = true ->
    rep2 ReadGist = Ok data -> find_shaderFile data = Some file ->
    truncated file = true -> rep3 (Fetch (raw_url file) None) = Ok raw ->
    rep4 ReadText = Ok text -> JSON_parse text = Exn e ->
    load_fails id [(f1, rep1); (f2, rep2); (f3, rep3); (f4, rep4)] e.


End Json.

(** A parser to run the client on: it knows the empty project and [null]. *)
Definition toy_parse (text : string) : Outcome (option Project) :=
  if String.eqb text "{}"
  then Ok (Some (mkProject None None None None None))
  else if String.eqb text "null" then Ok None else Exn "SyntaxError".


(** [new GitHubIntegration()]: the token and the history come from
    [localStorage]. *)
Definition constructor (ls : Storage) (time : string) : State :=
  {| token := github_token ls;
     user := None;
     currentGistId := None;
     gistHistory := default [] (gist_history ls);
     currentGistAuthors :=
       {| first := None; firstGistId := None; last := None; lastGistId := None |};
     localStorage := ls;
     clock := time;
     trace := [] |}.

(** A run driven to its end by a script: at each suspension, what the rest
    of the page does to the state meanwhile, and the reply that arrives.
    The result comes with the part of the script that was not used; [None]
    when the script is too short. *)
Definition Script : Type := list ((State -> State) * (forall q, Rep q)).

Fixpoint drive_rest {A : Type} (script : Script) (r : Run State Req Rep A)
    {struct r} : option (Outcome A * State * Script) :=
  match r with
  | Returned s a => Some (Ok a, s, script)
  | Thrown s e => Some (Exn e, s, script)
  | Awaiting s q k =>
      match script with
      | [] => None
      | (others, reply) :: rest => drive_rest rest (k (reply q) (others s))
      end
  end.

Definition drive {A : Type} (script : Script) (r : Run State Req Rep A)
    : option (Outcome A * State) :=
  match drive_rest script r with
  | Some (o, s, _) => Some (o, s)
  | None => None
  end.

(** A reply that answers a fetch with [r] (and fails any other request). *)
Definition fetch_reply (r : Outcome Response) : forall q, Rep q :=
  fun q => match q with
           | Fetch _ _ => r
           | ReadGist => Exn "unexpected"
           | ReadText => Exn "unexpected"
           | ReadUser => Exn "unexpected"
           | ReadSaved => Exn "unexpected"
           end.

(** Nothing else happens on the page while the fetch is out. *)
Definition quiet (r : Outcome Response) : (State -> State) * (forall q, Rep q) :=
  (fun s => s, fetch_reply r).






(** ** Signing in *)

Definition getUser (s : State) : option string := user s.

(** [this.user !== null] *)
Definition isLoggedIn (s : State) : bool := bool_decide (user s <> None).

(** [promptForGistId()], [answer] being what [prompt] returned: the part
    after the last slash. *)
Definition promptForGistId (answer : option string) : option string :=
  match answer with
  | Some id => if truthy answer
               then Some (List.last (Bridge.split "/" id) EmptyString)
               else None
  | None => None
  end.

(** What [checkToken] waits for: the answer to its request for the profile
    of the token's owner, sent with an [Authorization] header, and the body
    of that answer. *)
Inductive AuthReq :=
| FetchUser (authorization : string)
| ReadAccount.

Definition AuthRep (q : AuthReq) : Type :=
  match q with
  | FetchUser _ => Outcome Response
  | ReadAccount => Outcome UserData
  end.

Definition Auth (A : Type) : Type := Task State AuthReq AuthRep A.

Definition checkToken : Auth bool :=
  fun s =>
    match token s with
    | Some tok =>
        if truthy (token s)
        then
          task_catch (Rep := AuthRep)
            (task_bind (Rep := AuthRep) (await (FetchUser ("token " ++ tok))) (fun r =>
             match r with
             | Exn e => task_throw e
             | Ok response =>
                 if ok response
                 then task_bind (Rep := AuthRep) (await ReadAccount) (fun d =>
                      match d with
                      | Exn e => task_throw e
                      | Ok data =>
                          fun s => Returned (with_user (Some (u_login data)) s) true
                      end)
                 else task_throw "Invalid token"
             end))
            (fun err s =>
               Returned
                 (state_of
                    (logout (with_trace
                               (trace s ++ [ConsoleWarn ("GitHub token invalid: " ++ err)])
                               s)))
                 false)
            s
        else Returned s false
    | None => Returned s false
    end.

(** [login()] (the name [login] is taken by the field of [Owner]),
    [answer] being what [prompt] returns when it is asked: the value
    returned, and the check of the new token, which is started and not
    waited for. *)
Definition login_ (answer : option string) (s : State)
    : bool * Run State AuthReq AuthRep bool :=
  if truthy (user s)
  then (false, Returned (state_of (logout s)) false)
  else
    match answer with
    | Some tok =>
        if truthy answer
        then (true,
              checkToken
                (with_localStorage
                   {| github_token := Some tok;
                      gist_history := gist_history (localStorage s) |}
                   (with_token (Some tok) s)))
        else (false, Returned s false)
    | None => (false, Returned s false)
    end.

(** [s'] differs from [s] at most in the authors shown and in the trace,
    which has grown by [t]. *)
Definition only_authors (s s' : State) (t : list Effect) : Prop :=
  s' = with_trace (trace s ++ t) (with_currentGistAuthors (currentGistAuthors s') s).

(** Whether an effect is a call of the [onSuccess] or [onError] callback. *)
Definition is_verdict (e : Effect) : bool :=
  match e with
  | CbSuccess _ | CbError _ => true
  | _ => false
  end.

(** The requests recorded in a trace. *)
Definition requests_of (t : list Effect) : list Effect :=
  List.filter (fun e => match e with
                        | Request _ _ => true
                        | _ => false
                        end) t.

(** A script in which nothing else happens on the page while a request is
    out: only the replies. *)
Definition undisturbed (replies : list Reply) : Script :=
  map (fun reply => (fun s : State => s, reply)) replies.

End GitHub.

(* ===================================================================== *)
(** * The entry point: how the modules are wired together *)
(* ===================================================================== *)

Module App.

(** The objects the handlers below share: the document as [UIManager] sees
    it, and the bridge with its module.  The bridge's [logCallback] is
    [ui.logToConsole], so a line written to the console panel is a
    [LogCallback] of the bridge's trace. *)
Record State := mkState {
  ui : UI.Page;
  glslviewer : Bridge.World
}.

Definition M (A : Type) : Type := State -> Outcome A * State.

Definition ret {A : Type} (a : A) : M A := fun s => (Ok a, s).
Definition bind {A B : Type} (m : M A) (f : A -> M B) : M B :=
  fun s => match m s with
           | (Ok a, s') => f a s'
           | (Exn e, s') => (Exn e, s')
           end.

Declare Scope app_scope.
Delimit Scope app_scope with app.
Notation "'let*' x ':=' m 'in' k" := (bind m (fun x => k))
  (at level 10, x name, m at level 100, k at level 200) : app_scope.
Notation "m '>>' k" := (bind m (fun _ => k))
  (at level 65, right associativity) : app_scope.
Local Open Scope app_scope.

Definition when (b : bool) (m : M unit) : M unit := if b then m else ret tt.

Fixpoint forEach {A : Type} (l : list A) (f : A -> M unit) : M unit :=
  match l with
  | [] => ret tt
  | x :: r => f x >> forEach r f
  end.

(** A method of [glslviewer]. *)
Definition onBridge {A : Type} (m : Bridge.M A) : M A :=
  fun s => let (o, w) := m (glslviewer s) in
           (o, {| ui := ui s; glslviewer := w |}).

Definition getFullscreen : M bool :=
  fun s => (Ok (UI.getFullscreen (ui s)), s).

Definition setFullscreen (isFullscreen : bool) : M unit :=
  fun s => (Ok tt, {| ui := UI.setFullscreen isFullscreen (ui s);
                      glslviewer := glslviewer s |}).

Definition logToConsole (text : string) (isError : bool) : M unit :=
  onBridge (Bridge.logCallback text isError).

Definition on_off (b : bool) : string := if b then "on" else "off".

(** The handler given to [setupConsoleInput]. *)
Definition onCommand (cmd : string) : M unit :=
  if String.eqb cmd "fullscreen,on" then
    setFullscreen true >>
    logToConsole ("> " ++ cmd) false >>
    logToConsole "on" false
  else if String.eqb cmd "fullscreen,off" then
    setFullscreen false >>
    logToConsole ("> " ++ cmd) false >>
    logToConsole "off" false
  else if String.eqb cmd "fullscreen,toggle" then
    (let* f := getFullscreen in setFullscreen (negb f)) >>
    logToConsole ("> " ++ cmd) false >>
    let* f := getFullscreen in
    logToConsole (on_off f) false
  else if String.eqb cmd "fullscreen" then
    logToConsole ("> " ++ cmd) false >>
    let* f := getFullscreen in
    logToConsole (on_off f) false
  else onBridge (Bridge.sendCommand cmd).

(** The [Enter] key in the console's input field holding [value]. *)
Definition consoleEnter (value : string) : M unit :=
  let cmd := trim value in
  when (truthy (Some cmd)) (onCommand cmd).

(** [l.indexOf(x)] *)
Definition indexOf (l : list string) (x : string) : Z :=
  match list_find (fun y => y = x) l with
  | Some (i, _) => Z.of_nat i
  | None => -1
  end.

(** The click on the item of the View menu for the toggle [cmd]; the
    refresh of the check marks that it schedules is left out. *)
Definition viewItemClick (cmd : string) : M unit :=
  if String.eqb cmd "plot" then
    let* answer := onBridge (Bridge.query cmd) in
    let currentState := GitHub.or_else answer "off" in
    let currentIndex := indexOf Bridge.cmds_plot_modes currentState in
    let nextIndex := Z.rem (currentIndex + 1)
                           (Z.of_nat (List.length Bridge.cmds_plot_modes)) in
    let newState := nth (Z.to_nat nextIndex) Bridge.cmds_plot_modes "undefined"%string in
    onBridge (Bridge.sendCommand (cmd ++ "," ++ newState))
  else if String.eqb cmd "fullscreen" then
    let* f := getFullscreen in
    let currentState := on_off f in
    let newState := if String.eqb currentState "on" then "off"%string else "on"%string in
    setFullscreen (String.eqb newState "on")
  else
    let* answer := onBridge (Bridge.query cmd) in
    let currentState := GitHub.or_else answer "off" in
    let newState := if String.eqb currentState "on" then "off"%string else "on"%string in
    onBridge (Bridge.sendCommand (cmd ++ "," ++ newState)).

(** [window.getRetainedState()], which is also the [commands] of a saved
    project: the bridge's retained state, then ['fullscreen,on'] when the
    page is in fullscreen. *)
Definition getRetainedState : M (list string) :=
  let* r := onBridge (Bridge.getRetainedState) in
  let* retained := onBridge (Bridge.read r) in
  let* f := getFullscreen in
  ret (retained ++ (if f then ["fullscreen,on"%string] else [])).

(** The commands of a loaded project are applied in order. *)
Definition applyCommand (cmd : string) : M unit :=
  if Bridge.startsWith cmd "fullscreen,"
  then let state := nth 1 (Bridge.split "," cmd) "undefined"%string in
       setFullscreen (String.eqb state "on")
  else onBridge (Bridge.sendCommand cmd).

Definition applyCommands (commands : list string) : M unit :=
  forEach commands applyCommand.

(** [updateShader]: the widget's text goes to the entry point of the
    active buffer. *)
Definition updateShader (e : Editor.State) : Bridge.M unit :=
  let code := Editor.getValue e in
  match Editor.getActiveTab e with
  | Editor.frag => Bridge.setFrag code
  | Editor.vert => Bridge.setVert code
  end.

(** A click on the tab [type] ([setupTabSwitching]): fullscreen is left,
    and the editor switches with an [onSwitch] that does nothing, known to
    the editor as [onSwitch].  The highlighting of the tab buttons is left
    out. *)
Definition tabClick (type : Editor.TabKind) (onSwitch : nat)
    (p : UI.Page) (e : Editor.State) : UI.Page * Editor.State :=
  (if UI.getFullscreen p then UI.setFullscreen false p else p,
   Editor.switchTab type (Some onSwitch) e).

End App.

(* ===================================================================== *)
(** * Properties *)
(* ===================================================================== *)

(** Split a conjunction without unfolding what it is made of. *)
Ltac split_conj := repeat match goal with |- _ /\ _ => split end.

(** ** The loader counter *)

Section LoaderFacts.
Import UI.

Lemma showLoader_count text u :
  loaderCount (showLoader text u) = loaderCount u + 1.
Proof. unfold showLoader. destruct (loader u); reflexivity. Qed.

Lemma hideLoader_count u :
  is_Some (loader u) ->
  loaderCount (hideLoader u) = Z.max 0 (loaderCount u - 1).
Proof.
  intros [l Hl]. unfold hideLoader. rewrite Hl.
  destruct (Z.leb_spec (loaderCount u - 1) 0); simpl; lia.
Qed.

Lemma perform_loader_present u c :
  is_Some (loader u) -> is_Some (loader (perform u c)).
Proof.
  intros [l Hl]. destruct c; simpl.
  - unfold showLoader. rewrite Hl. eauto.
  - unfold hideLoader. rewrite Hl.
    destruct (loaderCount u - 1 <=? 0); eauto.
Qed.

Lemma perform_inv u c : loader_inv u -> loader_inv (perform u c).
Proof.
  intros (Hl & Hc & Hv). split; [by apply perform_loader_present|].
  destruct Hl as [l Hl]. destruct c; simpl.
  - unfold showLoader, isVisible. rewrite Hl. simpl.
    destruct (Z.ltb_spec 0 (loaderCount u + 1)); simpl; [split; [lia|done]|lia].
  - unfold hideLoader, isVisible in *. rewrite Hl in *.
    destruct (Z.leb_spec (loaderCount u - 1) 0); simpl; [split; lia|].
    split; [lia|]. intros _. apply Hv. lia.
Qed.

(** After a call, the spinner shows only if the counter is positive. *)
Lemma perform_visible_positive u c :
  loader_inv u -> isVisible (perform u c) = true -> 0 < loaderCount (perform u c).
Proof.
  intros ([l Hl] & Hc & Hv). destruct c; simpl.
  - unfold showLoader, isVisible. rewrite Hl. simpl. lia.
  - unfold hideLoader, isVisible. rewrite Hl.
    destruct (Z.leb_spec (loaderCount u - 1) 0); simpl; [done|lia].
Qed.

Lemma run_inv calls u : loader_inv u -> loader_inv (run calls u).
Proof.
  revert u. induction calls as [|c calls IH]; intros u Hu; [done|].
  simpl. apply IH. by apply perform_inv.
Qed.

Lemma run_snoc calls c u : run (calls ++ [c]) u = perform (run calls u) c.
Proof. unfold run. by rewrite fold_left_app. Qed.

Lemma run_count_net calls l0 :
  loaderCount (run calls (constructor (Some l0))) = net calls.
Proof.
  induction calls as [|c calls IH] using rev_ind; [done|].
  rewrite run_snoc. unfold net. rewrite fold_left_app. simpl.
  fold (net calls). rewrite <- IH.
  destruct c; simpl; [apply showLoader_count|].
  apply hideLoader_count.
  apply (run_inv calls (constructor (Some l0))).
  repeat split; simpl; eauto; lia.
Qed.

(** C1, as the code has it.  On a page that has the loader element, and
    unless the element is already shown before the first call: after every
    sequence of [showLoader]/[hideLoader] calls from count 0 the counter is
    not negative, it is the net count (each show adds one, each hide takes
    one away, clamped at 0), and the loader is visible exactly when the
    counter is positive. *)
Theorem loader_counter (l0 : LoaderEl) (calls : list call) :
  visible l0 = false \/ calls <> [] ->
  let u := run calls (constructor (Some l0)) in
  0 <= loaderCount u /\
  loaderCount u = net calls /\
  (isVisible u = true <-> 0 < loaderCount u) /\
  (forall text, loaderCount (showLoader text u) = loaderCount u + 1) /\
  loaderCount (hideLoader u) = Z.max 0 (loaderCount u - 1).
Proof.
  intros Hstart u.
  assert (Hinit : loader_inv (constructor (Some l0))).
  { repeat split; simpl; eauto; lia. }
  assert (Hu : loader_inv u) by by apply run_inv.
  destruct Hu as (Hl & Hc & Hv).
  split; [done|]. split; [apply run_count_net|].
  split; [|split; [intros; apply showLoader_count|by apply hideLoader_count]].
  split; [|done].
  subst u. destruct calls as [|c calls _] using rev_ind.
  - destruct Hstart as [H0|]; [|done]. simpl. unfold isVisible. simpl.
    rewrite H0. done.
  - rewrite run_snoc. apply perform_visible_positive. by apply run_inv.
Qed.

Lemma loader_counter_witness :
  let u := run [Show (Some "Loading..."%string); Show None; Hide; Hide; Hide]
               (constructor (Some {| visible := true; loaderContent := None |})) in
  0 <= loaderCount u /\
  loaderCount u = net [Show (Some "Loading..."%string); Show None; Hide; Hide; Hide] /\
  (isVisible u = true <-> 0 < loaderCount u) /\
  (forall text, loaderCount (showLoader text u) = loaderCount u + 1) /\
  loaderCount (hideLoader u) = Z.max 0 (loaderCount u - 1).
Proof.
  apply (loader_counter {| visible := true; loaderContent := None |}
           [Show (Some "Loading..."%string); Show None; Hide; Hide; Hide]).
  right. discriminate.
Defined.

(** C1 as stated fails on a page without the loader element: the clamp sits
    under the test for the element, so one [hideLoader] leaves the counter
    at -1. *)
Lemma loader_counter_negative :
  loaderCount (run [Hide] (constructor None)) = -1 /\
  ~ 0 <= loaderCount (run [Hide] (constructor None)).
Proof. split; [reflexivity|]. simpl. lia. Qed.

End LoaderFacts.

(** ** Error decoration *)

Section ErrorLineFacts.
Import Editor.

Lemma span_digits_app ds rest :
  all_digits ds = true ->
  (forall c r, rest = String c r -> is_digit c = false) ->
  span_digits (ds ++ rest) = (ds, rest).
Proof.
  intros Hds Hrest. induction ds as [|c ds IH]; simpl in *.
  - destruct rest as [|c r]; [done|]. simpl. by rewrite (Hrest c r).
  - apply andb_prop in Hds as [Hc Hds]. rewrite Hc, IH; done.
Qed.

(** The events the pattern accepts. *)
Lemma errorRegex_match_form ds msg :
  ds <> EmptyString -> all_digits ds = true -> no_line_terminator msg = true ->
  errorRegex_match ("0:" ++ ds ++ ":" ++ msg) = Some (ds, msg).
Proof.
  intros Hne Hds Hmsg.
  change ("0:" ++ ds ++ ":" ++ msg)%string
    with (String "0" (String ":" (ds ++ String ":" msg)))%string.
  unfold errorRegex_match.
  rewrite (span_digits_app ds (String ":" msg)); [|done|].
  - rewrite Hmsg. by destruct ds.
  - intros c r [= <- _]. reflexivity.
Qed.

(** C2, as the code has it.  For an error event ["0:<line>:<text>"] (the
    line in decimal digits, the text free of line breaks) the listener
    decorates zero-based line [<line> - 1] when that line exists, that is
    when [1 <= <line> <= lineCount], and changes nothing otherwise.  So
    ["0:12:syntax error"] decorates line 11 of a document of at least 12
    lines, ["0:0:x"] decorates nothing, and a line number beyond the
    document decorates nothing; the listener always returns. *)
Theorem error_line_mapping (lineCount : string -> nat) (s : State) :
  (forall ds msg,
     ds <> EmptyString -> all_digits ds = true -> no_line_terminator msg = true ->
     onWasmStderr lineCount ("0:" ++ ds ++ ":" ++ msg) s =
       if (1 <=? parseInt ds) && (parseInt ds <=? Z.of_nat (lineCount (value (editor s))))
       then with_editor (addLineClass (Z.to_nat (parseInt ds - 1)) (editor s)) s
       else s) /\
  ((12 <= lineCount (value (editor s)))%nat ->
     errorLines (editor (onWasmStderr lineCount "0:12:syntax error" s))
       = {[ 11%nat ]} ∪ errorLines (editor s)) /\
  onWasmStderr lineCount "0:0:x" s = s /\
  (forall ds msg,
     ds <> EmptyString -> all_digits ds = true -> no_line_terminator msg = true ->
     Z.of_nat (lineCount (value (editor s))) < parseInt ds ->
     onWasmStderr lineCount ("0:" ++ ds ++ ":" ++ msg) s = s).
Proof.
  assert (Hgen : forall ds msg,
     ds <> EmptyString -> all_digits ds = true -> no_line_terminator msg = true ->
     onWasmStderr lineCount ("0:" ++ ds ++ ":" ++ msg) s =
       if (1 <=? parseInt ds) && (parseInt ds <=? Z.of_nat (lineCount (value (editor s))))
       then with_editor (addLineClass (Z.to_nat (parseInt ds - 1)) (editor s)) s
       else s).
  { intros ds msg Hne Hds Hmsg. unfold onWasmStderr.
    rewrite errorRegex_match_form by done.
    destruct (Z.leb_spec 0 (parseInt ds - 1)), (Z.leb_spec 1 (parseInt ds));
      try lia; simpl; [|done].
    destruct (Z.ltb_spec (parseInt ds - 1) (Z.of_nat (lineCount (value (editor s))))),
             (Z.leb_spec (parseInt ds) (Z.of_nat (lineCount (value (editor s)))));
      try lia; done. }
  split; [exact Hgen|]. split; [|split].
  - intros Hlines.
    change "0:12:syntax error"%string
      with ("0:" ++ "12" ++ ":" ++ "syntax error")%string.
    rewrite (Hgen "12" "syntax error")%string by done.
    change (parseInt "12") with 12.
    destruct (Z.leb_spec 12 (Z.of_nat (lineCount (value (editor s))))); [|lia].
    reflexivity.
  - apply (Hgen "0" "x")%string; done.
  - intros ds msg Hne Hds Hmsg Hbig. rewrite Hgen by done.
    destruct (Z.leb_spec (parseInt ds) (Z.of_nat (lineCount (value (editor s)))));
      [lia|]. by rewrite andb_false_r.
Qed.

(** C2 as stated fails on ["0:0:x"]: the listener maps line 0 to -1, which
    its range test refuses, so line 0 is not decorated. *)
Lemma error_line_zero_not_decorated :
  let s0 := constructor {| c_frag := "void main() {}"; c_vert := "" |} 0 in
  errorRegex_match "0:0:x" = Some ("0", "x")%string /\
  errorLines (editor (onWasmStderr (fun _ => 1%nat) "0:0:x" s0)) = ∅ /\
  ~ 0%nat ∈ errorLines (editor (onWasmStderr (fun _ => 1%nat) "0:0:x" s0)).
Proof.
  split; [reflexivity|]. split; [reflexivity|].
  change (0%nat ∉ (∅ : gset nat)). set_solver.
Qed.

End ErrorLineFacts.

(** ** Debounced change notification *)

Section DebounceFacts.
Import Editor.

Local Open Scope nat_scope.

Lemma well_formed_constructor c t : well_formed (constructor c t).
Proof.
  unfold well_formed. simpl. split; [|split].
  - intros id [tm H]. by rewrite lookup_empty in H.
  - intros id [tm H]. by rewrite lookup_empty in H.
  - intros id H. discriminate.
Qed.

Lemma well_formed_onChange cb ms s :
  well_formed s -> well_formed (onChange cb ms s).
Proof. intros H. exact H. Qed.

(** Cancelling the timer [updateTimeout] names leaves no timer at all. *)
Lemma pending_cleared s :
  well_formed s ->
  match updateTimeout s with
  | Some id => delete id (timers s)
  | None => timers s
  end = ∅.
Proof.
  intros (Hone & _ & _). apply map_eq. intros j. rewrite lookup_empty.
  destruct (updateTimeout s) as [id|] eqn:Hu.
  - destruct (decide (id = j)) as [->|Hne]; [apply lookup_delete_eq|].
    rewrite lookup_delete_ne by done.
    destruct (timers s !! j) eqn:Hj; [|done].
    specialize (Hone j (ltac:(eauto))). congruence.
  - destruct (timers s !! j) eqn:Hj; [|done].
    specialize (Hone j (ltac:(eauto))). congruence.
Qed.

(** The listener cancels what is pending and sets one new timer. *)
Lemma changeListener_eq l s :
  well_formed s ->
  changeListener l s = after_edit (value (editor s)) (now s) l s.
Proof.
  intros Hwf. pose proof (pending_cleared s Hwf) as Hclr.
  unfold changeListener, after_edit, clearErrorHighlighting, setTimeout, clearTimeout.
  destruct s as [a c u e ls t tm n inv]. simpl in *.
  destruct u as [id|]; simpl; rewrite Hclr; reflexivity.
Qed.

Lemma after_edit_well_formed v t l s : well_formed (after_edit v t l s).
Proof.
  repeat split; simpl.
  - intros id [tm Hid]. apply lookup_singleton_Some in Hid as [-> _]. done.
  - intros id [tm Hid]. apply lookup_singleton_Some in Hid as [-> _]. lia.
  - intros id [= <-]. lia.
Qed.

(** One edit, with one listener installed. *)
Lemma step_edit s l t v :
  well_formed s -> listeners s = [l] -> now s <= t ->
  step t (Edit v) s = Some (after_edit v t l s).
Proof.
  intros Hwf Hl Ht. unfold step.
  destruct (Nat.ltb_spec t (now s)); [lia|].
  unfold signalChange. simpl. rewrite Hl. simpl.
  rewrite changeListener_eq; [reflexivity|].
  destruct Hwf as (H1 & H2 & H3). repeat split; simpl; auto.
Qed.

(** The pending timer runs only once it is due, and then calls back only
    if the text differs from the active buffer's snapshot. *)
Lemma step_fire_after_edit v t0 l s t id :
  step t (Fire id) (after_edit v t0 l s) =
    if decide (id = nextTimer s /\ t0 + debounceMs l <= t)
    then Some {| activeTab := activeTab s;
                 content := content s;
                 updateTimeout := None;
                 editor := {| value := v; mode := mode (editor s); errorLines := ∅ |};
                 listeners := listeners s;
                 now := t;
                 timers := ∅;
                 nextTimer := Pos.succ (nextTimer s);
                 invoked :=
                   if decide (v = getBuffer (content s) (activeTab s))
                   then invoked s
                   else invoked s ++ [(t, callback l)] |}
    else None.
Proof.
  unfold step. simpl.
  destruct (Nat.ltb_spec t t0).
  { case_decide; [lia|done]. }
  destruct (decide (id = nextTimer s)) as [->|Hne].
  - rewrite lookup_singleton_eq. simpl.
    destruct (Nat.leb_spec (t0 + debounceMs l) t).
    + rewrite decide_True by done.
      unfold timerBody, clearTimeout, invoke. simpl.
      rewrite delete_singleton_eq.
      case_decide; reflexivity.
    + rewrite decide_False by lia. done.
  - rewrite lookup_singleton_ne by done.
    rewrite decide_False; [done|]. intros [? _]. done.
Qed.

(** C3.  With one listener installed with a 300 ms delay, five edits 50 ms
    apart leave exactly one timer pending, due 300 ms after the last edit,
    and call nothing back meanwhile; no timer can run before that moment;
    and when that timer runs, the callback is called once if the text
    differs from the active buffer's snapshot, and not at all if it equals
    it, after which no timer is left. *)
Theorem debounce_five_edits (s : State) (cb t0 : nat) (v1 v2 v3 v4 v5 : string) :
  well_formed s ->
  listeners s = [{| callback := cb; debounceMs := 300 |}] ->
  now s <= t0 ->
  exists s5 id,
    exec [(t0, Edit v1); (t0 + 50, Edit v2); (t0 + 100, Edit v3);
          (t0 + 150, Edit v4); (t0 + 200, Edit v5)] s = Some s5 /\
    invoked s5 = invoked s /\
    timers s5 = {[ id := {| due := t0 + 200 + 300;
                            closure := {| callback := cb; debounceMs := 300 |} |} ]} /\
    (forall t id', is_Some (step t (Fire id') s5) -> id' = id /\ t0 + 200 + 300 <= t) /\
    (forall t, t0 + 200 + 300 <= t ->
       exists s6,
         step t (Fire id) s5 = Some s6 /\
         timers s6 = ∅ /\
         updateTimeout s6 = None /\
         invoked s6 =
           if decide (v5 = getBuffer (content s) (activeTab s))
           then invoked s
           else invoked s ++ [(t, cb)]).
Proof.
  intros Hwf Hl Ht.
  set (l := {| callback := cb; debounceMs := 300 |}) in *.
  set (s1 := after_edit v1 t0 l s).
  set (s2 := after_edit v2 (t0 + 50) l s1).
  set (s3 := after_edit v3 (t0 + 100) l s2).
  set (s4 := after_edit v4 (t0 + 150) l s3).
  exists (after_edit v5 (t0 + 200) l s4), (nextTimer s4).
  split.
  { simpl.
    rewrite (step_edit s l) by done. fold s1.
    rewrite (step_edit s1 l) by (first [apply after_edit_well_formed | done | simpl; lia]).
    fold s2.
    rewrite (step_edit s2 l) by (first [apply after_edit_well_formed | done | simpl; lia]).
    fold s3.
    rewrite (step_edit s3 l) by (first [apply after_edit_well_formed | done | simpl; lia]).
    fold s4.
    rewrite (step_edit s4 l) by (first [apply after_edit_well_formed | done | simpl; lia]).
    reflexivity. }
  split; [reflexivity|]. split; [reflexivity|]. split.
  - intros t id' Hsome. rewrite step_fire_after_edit in Hsome.
    case_decide as Hd; [|by destruct Hsome].
    destruct Hd as [-> Hd]. simpl in Hd. done.
  - intros t Hdue. eexists. rewrite step_fire_after_edit.
    rewrite decide_True by (split; [done|simpl; lia]).
    split; [reflexivity|]. simpl. repeat split; reflexivity.
Qed.

Lemma debounce_five_edits_witness :
  let s := onChange 7 300 (constructor {| c_frag := "a"; c_vert := "b" |} 0) in
  exists s5 id,
    exec [(10, Edit "ab"); (10 + 50, Edit "abc"); (10 + 100, Edit "ab");
          (10 + 150, Edit "a"); (10 + 200, Edit "ax")]%string s = Some s5 /\
    invoked s5 = invoked s /\
    timers s5 = {[ id := {| due := 10 + 200 + 300;
                            closure := {| callback := 7; debounceMs := 300 |} |} ]} /\
    (forall t id', is_Some (step t (Fire id') s5) -> id' = id /\ 10 + 200 + 300 <= t) /\
    (forall t, 10 + 200 + 300 <= t ->
       exists s6,
         step t (Fire id) s5 = Some s6 /\
         timers s6 = ∅ /\
         updateTimeout s6 = None /\
         invoked s6 =
           if decide ("ax"%string = getBuffer (content s) (activeTab s))
           then invoked s
           else invoked s ++ [(t, 7)]).
Proof.
  apply (debounce_five_edits
           (onChange 7 300 (constructor {| c_frag := "a"; c_vert := "b" |} 0))
           7 10 "ab" "abc" "ab" "a" "ax").
  - apply well_formed_onChange, well_formed_constructor.
  - reflexivity.
  - simpl. lia.
Defined.

End DebounceFacts.

(** ** Tab switching *)

Section SwitchTabFacts.
Import Editor.

Local Open Scope nat_scope.

(** Only the timer fields matter to [well_formed]. *)
Lemma well_formed_ext s s' :
  timers s' = timers s -> updateTimeout s' = updateTimeout s ->
  nextTimer s' = nextTimer s -> well_formed s -> well_formed s'.
Proof. unfold well_formed. intros -> -> ->. done. Qed.

Lemma changeListener_same_document l s : same_document s (changeListener l s).
Proof.
  unfold changeListener, clearErrorHighlighting, setTimeout, clearTimeout.
  destruct s as [a c [id|] e ls t tm n inv]; repeat split.
Qed.

Lemma fold_changeListener ls s0 s :
  well_formed s -> (nextTimer s0 <= nextTimer s)%positive ->
  (forall j, is_Some (timers s !! j) -> (nextTimer s0 <= j)%positive) ->
  same_document s0 s ->
  let s' := fold_left (fun s l => changeListener l s) ls s in
  well_formed s' /\ same_document s0 s' /\
  (forall j, is_Some (timers s' !! j) -> (nextTimer s0 <= j)%positive).
Proof.
  revert s. induction ls as [|l ls IH]; intros s Hwf Hn Hj Hdoc; simpl; [done|].
  apply IH.
  - rewrite changeListener_eq by done. apply after_edit_well_formed.
  - rewrite changeListener_eq by done. simpl. lia.
  - rewrite changeListener_eq by done. simpl. intros j [tm Hlk].
    apply lookup_singleton_Some in Hlk as [<- _]. done.
  - destruct (changeListener_same_document l s) as (H1 & H2 & H3 & H4 & H5 & H6 & H7).
    destruct Hdoc as (G1 & G2 & G3 & G4 & G5 & G6 & G7).
    repeat split; congruence.
Qed.

(** [setValue] on a state without pending timers. *)
Lemma setValue_spec v s :
  well_formed s -> timers s = ∅ ->
  let s' := setValue v s in
  well_formed s' /\ value (editor s') = v /\ mode (editor s') = mode (editor s) /\
  activeTab s' = activeTab s /\ content s' = content s /\ invoked s' = invoked s /\
  (forall j, is_Some (timers s' !! j) -> (nextTimer s <= j)%positive).
Proof.
  intros Hwf Hnone. unfold setValue, signalChange.
  set (s1 := with_editor _ s).
  destruct (fold_changeListener (listeners s1) s1 s1) as (Hw & Hdoc & Hj).
  - by apply (well_formed_ext s).
  - lia.
  - simpl. rewrite Hnone. intros j [tm Hlk]. by rewrite lookup_empty in Hlk.
  - repeat split.
  - destruct Hdoc as (G1 & G2 & G3 & G4 & G5 & G6 & G7).
    split; [exact Hw|]. split; [exact G6|]. split; [exact G7|].
    split; [exact G1|]. split; [exact G2|]. split; [exact G3|]. exact Hj.
Qed.

Lemma fold_changeListener_well_formed ls s :
  well_formed s ->
  well_formed (fold_left (fun s l => changeListener l s) ls s).
Proof.
  revert s. induction ls as [|l ls IH]; intros s Hwf; simpl; [done|].
  apply IH. rewrite changeListener_eq by done. apply after_edit_well_formed.
Qed.

Lemma setValue_well_formed v s : well_formed s -> well_formed (setValue v s).
Proof.
  intros Hwf. unfold setValue, signalChange.
  apply fold_changeListener_well_formed. by apply (well_formed_ext s).
Qed.

Lemma well_formed_no_timers s :
  timers s = ∅ ->
  (forall id, updateTimeout s = Some id -> (id < nextTimer s)%positive) ->
  well_formed s.
Proof.
  intros Hnone Hu. unfold well_formed. rewrite Hnone. split_conj; [| |done];
    intros id [tm H]; by rewrite lookup_empty in H.
Qed.

Lemma switchTab_well_formed type onSwitch s :
  well_formed s -> well_formed (switchTab type onSwitch s).
Proof.
  intros Hwf. unfold switchTab. case_decide; [done|].
  apply setValue_well_formed.
  pose proof (pending_cleared s Hwf) as Hclr.
  destruct Hwf as (W1 & W2 & W3).
  apply well_formed_no_timers.
  - destruct type, (updateTimeout s), onSwitch; exact Hclr.
  - destruct type, (updateTimeout s) eqn:Hu, onSwitch; simpl; try rewrite Hu;
      exact W3.
Qed.

(** Every state the editor reaches is well formed. *)
Lemma reachable_well_formed s : reachable s -> well_formed s.
Proof.
  induction 1 as [c t|s cb ms _ IH|s t e s' _ IH Hstep].
  - apply well_formed_constructor.
  - by apply well_formed_onChange.
  - unfold step in Hstep. destruct (t <? now s); [done|].
    assert (Hw0 : well_formed (with_now t s)) by by apply (well_formed_ext s).
    destruct e as [v|id|type onSwitch|type v].
    + injection Hstep as <-. unfold signalChange.
      apply fold_changeListener_well_formed.
      by apply (well_formed_ext (with_now t s)).
    + simpl in Hstep. destruct (timers s !! id) as [tm|] eqn:Hid; [|done].
      destruct (due tm <=? t); [|done]. injection Hstep as <-.
      pose proof (pending_cleared s IH) as Hclr.
      destruct IH as (W1 & _ & _). rewrite (W1 id) in Hclr by eauto.
      apply well_formed_no_timers.
      * unfold timerBody. case_decide; exact Hclr.
      * unfold timerBody. case_decide; intros j Hj; discriminate.
    + injection Hstep as <-. by apply switchTab_well_formed.
    + injection Hstep as <-. unfold setContent.
      case_decide; [apply setValue_well_formed|];
        by apply (well_formed_ext (with_now t s)).
Qed.

(** C4, as the code has it.  [switchTab] with the active buffer changes
    nothing.  With the other buffer it cancels the pending debounce timer
    and, if [updateTimeout] was set, calls [onSwitch] (the callback passed
    to [switchTab], when one was passed) and nothing else; it then stores
    the widget's text in the outgoing buffer, makes the new buffer active,
    sets the syntax mode, and loads the incoming buffer's text into the
    widget. *)
Theorem switchTab_contract (s : State) (type : TabKind) (onSwitch : option nat) :
  well_formed s ->
  (type = activeTab s -> switchTab type onSwitch s = s) /\
  (type <> activeTab s ->
     let s' := switchTab type onSwitch s in
     (forall id, updateTimeout s = Some id -> timers s' !! id = None) /\
     invoked s' = invoked s ++
                  match updateTimeout s, onSwitch with
                  | Some _, Some f => [(now s, f)]
                  | _, _ => []
                  end /\
     getBuffer (content s') (activeTab s) = getValue s /\
     getBuffer (content s') type = getBuffer (content s) type /\
     activeTab s' = type /\
     mode (editor s') = match type with
                        | frag => "x-shader/x-fragment"
                        | vert => "x-shader/x-vertex"
                        end%string /\
     getValue s' = getBuffer (content s) type).
Proof.
  intros Hwf. split.
  { intros ->. unfold switchTab. by rewrite decide_True. }
  intros Hne s'. subst s'. unfold switchTab. rewrite decide_False by done.
  set (s1 := match updateTimeout s with Some _ => _ | None => s end).
  assert (H1 : well_formed s1 /\ timers s1 = ∅ /\ nextTimer s1 = nextTimer s /\
               activeTab s1 = activeTab s /\ content s1 = content s /\
               editor s1 = editor s /\
               invoked s1 = invoked s ++
                  match updateTimeout s, onSwitch with
                  | Some _, Some f => [(now s, f)]
                  | _, _ => []
                  end).
  { pose proof (pending_cleared s Hwf) as Hclr. subst s1.
    destruct (updateTimeout s) as [id|] eqn:Hu.
    - assert (Hw' : well_formed (clearTimeout id s)).
      { destruct Hwf as (W1 & W2 & W3). unfold clearTimeout. repeat split; simpl.
        - rewrite Hclr. intros j [tm Hj]. by rewrite lookup_empty in Hj.
        - rewrite Hclr. intros j [tm Hj]. by rewrite lookup_empty in Hj.
        - done. }
      destruct onSwitch as [f|]; simpl.
      + split_conj; done.
      + rewrite app_nil_r. split_conj; done.
    - rewrite app_nil_r. split_conj; done. }
  destruct H1 as (Hw1 & Ht1 & Hn1 & Ha1 & Hc1 & He1 & Hi1).
  set (s4 := match type with frag => _ | vert => _ end).
  assert (H4 : well_formed s4 /\ timers s4 = ∅ /\ nextTimer s4 = nextTimer s /\
               activeTab s4 = type /\
               content s4 = setBuffer (content s) (activeTab s) (getValue s) /\
               invoked s4 = invoked s1 /\
               mode (editor s4) = match type with
                                  | frag => "x-shader/x-fragment"
                                  | vert => "x-shader/x-vertex"
                                  end%string).
  { subst s4. unfold getValue. rewrite Ha1, Hc1, He1.
    destruct type; simpl; split_conj; try done;
      (eapply well_formed_ext; [| | |exact Hw1]; reflexivity). }
  destruct H4 as (Hw4 & Ht4 & Hn4 & Ha4 & Hc4 & Hi4 & Hm4).
  destruct (setValue_spec (getBuffer (content s4) (activeTab s4)) s4 Hw4 Ht4)
    as (Hw & Hv & Hm & Ha & Hc & Hi & Hj).
  assert (Hother : getBuffer (setBuffer (content s) (activeTab s) (getValue s)) type
                   = getBuffer (content s) type).
  { destruct type, (activeTab s); done. }
  split; [|split; [|split; [|split; [|split; [|split]]]]].
  - intros id Hu. destruct (timers _ !! id) eqn:Hlk; [|done].
    specialize (Hj id (ltac:(eauto))). rewrite Hn4 in Hj.
    destruct Hwf as (_ & _ & W3). specialize (W3 id Hu). lia.
  - by rewrite Hi, Hi4.
  - rewrite Hc, Hc4. destruct (activeTab s); reflexivity.
  - rewrite Hc, Hc4. done.
  - by rewrite Ha.
  - by rewrite Hm.
  - unfold getValue at 1. rewrite Hv, Hc4, Ha4. exact Hother.
Qed.

Lemma switchTab_contract_witness :
  let s := after_edit "x" 0 {| callback := 7; debounceMs := 300 |}
             (onChange 7 300 (constructor {| c_frag := "a"; c_vert := "b" |} 0)) in
  (vert = activeTab s -> switchTab vert (Some 9) s = s) /\
  (vert <> activeTab s ->
     let s' := switchTab vert (Some 9) s in
     (forall id, updateTimeout s = Some id -> timers s' !! id = None) /\
     invoked s' = invoked s ++
                  match updateTimeout s, Some 9 with
                  | Some _, Some f => [(now s, f)]
                  | _, _ => []
                  end /\
     getBuffer (content s') (activeTab s) = getValue s /\
     getBuffer (content s') vert = getBuffer (content s) vert /\
     activeTab s' = vert /\
     mode (editor s') = "x-shader/x-vertex"%string /\
     getValue s' = getBuffer (content s) vert).
Proof.
  apply (switchTab_contract
           (after_edit "x" 0 {| callback := 7; debounceMs := 300 |}
              (onChange 7 300 (constructor {| c_frag := "a"; c_vert := "b" |} 0)))
           vert (Some 9)).
  apply after_edit_well_formed.
Defined.

(** C4 as stated fails on the flush: with a change notification pending
    for callback 7, [switchTab] cancels its timer and does not call 7, be it
    with no [onSwitch] (nothing is called) or with [onSwitch] 9 (only 9 is
    called); and the timer that [setValue] then starts finds the text equal
    to the snapshot and calls nothing either. *)
Lemma switchTab_drops_pending_notification :
  let s := after_edit "x" 0 {| callback := 7; debounceMs := 300 |}
             (onChange 7 300 (constructor {| c_frag := "a"; c_vert := "b" |} 0)) in
  step 0 (Edit "x")
       (onChange 7 300 (constructor {| c_frag := "a"; c_vert := "b" |} 0)) = Some s /\
  timers s !! 1%positive
    = Some {| due := 300; closure := {| callback := 7; debounceMs := 300 |} |} /\
  invoked (switchTab vert None s) = [] /\
  invoked (switchTab vert (Some 9) s) = [(0, 9)] /\
  timers (switchTab vert None s) !! 1%positive = None /\
  (invoked <$> step 300 (Fire 2%positive) (switchTab vert None s)) = Some [].
Proof. vm_compute. repeat split; reflexivity. Qed.

End SwitchTabFacts.

(** ** The retained state *)

Section RetainedStateFacts.
Import Bridge.
Local Open Scope js_scope.

(** Adding to a set of distinct elements, in order of first arrival. *)
Lemma fold_Set_add l acc :
  NoDup acc ->
  exists rest,
    fold_left Set_add l acc = acc ++ rest /\
    NoDup (acc ++ rest) /\
    (forall x, x ∈ rest <-> x ∈ l /\ x ∉ acc).
Proof.
  revert acc. induction l as [|y l IH]; intros acc Hnd.
  - exists []. rewrite app_nil_r. split_conj; try done.
    intros x. split.
    + by intros Hx%elem_of_nil.
    + intros [Hx _]. by apply elem_of_nil in Hx.
  - simpl. unfold Set_add at 2. case_decide as Hy.
    + destruct (IH acc Hnd) as (rest & Heq & Hnd' & Hel).
      exists rest. split_conj; try done.
      intros x. split.
      * intros Hx. apply Hel in Hx as [Hx Hn]. split; [by right|done].
      * intros [Hx Hn]. apply Hel. split; [|done].
        apply elem_of_cons in Hx as [->|Hx]; done.
    + assert (Hnd1 : NoDup (acc ++ [y])).
      { apply NoDup_app. split_conj; [done| |apply NoDup_singleton].
        intros x Hx Hx'. apply list_elem_of_singleton in Hx' as ->. done. }
      destruct (IH (acc ++ [y]) Hnd1) as (rest & Heq & Hnd' & Hel).
      exists (y :: rest). rewrite Heq, <- app_assoc. simpl.
      split_conj; try done.
      * by rewrite <- app_assoc in Hnd'.
      * intros x. split.
        -- intros Hx. apply elem_of_cons in Hx as [->|Hx]; [split; [by left|done]|].
           apply Hel in Hx as [Hx Hn]. split; [by right|].
           intros Hacc. apply Hn. apply elem_of_app. by left.
        -- intros [Hx Hn]. apply elem_of_cons in Hx as [->|Hx]; [by left|].
           destruct (decide (x = y)) as [->|Hne]; [by left|]. right.
           apply Hel. split; [done|]. intros Hin.
           apply elem_of_app in Hin as [Hin|Hin]; [done|].
           apply list_elem_of_singleton in Hin. done.
Qed.

Lemma new_Set_NoDup l : NoDup (new_Set l).
Proof.
  destruct (fold_Set_add l [] (NoDup_nil_2)) as (rest & Heq & Hnd & _).
  unfold new_Set. by rewrite Heq.
Qed.

Lemma new_Set_elem_of l x : x ∈ new_Set l <-> x ∈ l.
Proof.
  destruct (fold_Set_add l [] (NoDup_nil_2)) as (rest & Heq & _ & Hel).
  unfold new_Set. rewrite Heq. simpl. rewrite Hel. split; [by intros []|].
  intros Hx. split; [done|]. by intros ?%elem_of_nil.
Qed.

Lemma new_Set_app l1 l2 :
  exists rest,
    new_Set (l1 ++ l2) = new_Set l1 ++ rest /\
    (forall x, x ∈ rest <-> x ∈ l2 /\ x ∉ l1).
Proof.
  unfold new_Set at 1. rewrite fold_left_app. fold (new_Set l1).
  destruct (fold_Set_add l2 (new_Set l1) (new_Set_NoDup l1)) as (rest & Heq & _ & Hel).
  exists rest. split; [done|]. intros x. rewrite Hel, new_Set_elem_of. done.
Qed.

(** An element stands right after the distinct elements that come before
    its first occurrence. *)
Lemma new_Set_first_occurrence l1 x l2 :
  x ∉ l1 -> exists rest, new_Set (l1 ++ x :: l2) = new_Set l1 ++ x :: rest.
Proof.
  intros Hx. unfold new_Set at 1. rewrite fold_left_app. fold (new_Set l1).
  simpl. unfold Set_add at 2. rewrite decide_False by by rewrite new_Set_elem_of.
  assert (Hnd : NoDup (new_Set l1 ++ [x])).
  { apply NoDup_app. split_conj; [apply new_Set_NoDup| |apply NoDup_singleton].
    intros y Hy Hy'. apply list_elem_of_singleton in Hy' as ->.
    apply Hx. by apply new_Set_elem_of. }
  destruct (fold_Set_add l2 _ Hnd) as (rest & Heq & _ & _).
  exists rest. by rewrite Heq, <- app_assoc.
Qed.

(** [query] returns what the module answers and only adds to the trace. *)
Lemma query_spec cmd w :
  exists t, query cmd w = (Ok (query_answer (window w) cmd), with_trace t w).
Proof.
  unfold query, query_answer, bind, get, try_catch, Module_ccall, has_ccall.
  destruct w as [[m loaded] h c a t]. simpl.
  destruct m as [[[f|] fs]|]; simpl.
  - destruct (f "query"%string [cmd]) as [r|e]; simpl; eauto.
  - by exists t.
  - by exists t.
Qed.

(** The loop over the toggles appends their pairs to the array it is given
    and touches no other array. *)
Lemma forEach_pairs cmds results r w :
  heap w !! results = Some r ->
  exists t,
    forEach cmds (check_cmd results) w
    = (Ok tt,
       with_trace t
         (with_heap (<[results := r ++ omap (derived_pair (window w)) cmds]> (heap w)) w)).
Proof.
  revert r w. induction cmds as [|cmd cmds IH]; intros r w Hr.
  - exists (trace w). simpl. unfold ret. rewrite app_nil_r.
    rewrite insert_id by done. by destruct w.
  - simpl. unfold bind at 1. unfold check_cmd at 1. unfold bind at 1.
    destruct (query_spec cmd w) as (t1 & Hq). rewrite Hq.
    unfold derived_pair at 1.
    destruct (query_answer (window w) cmd) as [a|] eqn:Ha.
    + unfold when. destruct (truthy (Some a)) eqn:Htr.
      * unfold push. simpl.
        edestruct (IH (r ++ [(cmd ++ "," ++ a)%string])) as (t2 & Hloop);
          [|rewrite Hloop].
        { simpl. rewrite lookup_alter_eq, Hr. reflexivity. }
        exists t2. unfold with_heap, with_trace. simpl.
        rewrite insert_alter_eq, <- app_assoc. reflexivity.
      * unfold ret at 1. simpl.
        edestruct (IH r (with_trace t1 w)) as (t2 & Hloop); [exact Hr|].
        rewrite Hloop. by exists t2.
    + unfold ret at 1. simpl.
      edestruct (IH r (with_trace t1 w)) as (t2 & Hloop); [exact Hr|].
      rewrite Hloop. by exists t2.
Qed.

(** [getRetainedState] in closed form: two new arrays, the second returned,
    and nothing else changed but the trace. *)
Lemma getRetainedState_eq w :
  let hist := array_at w (cmdsHistory w) in
  let all := hist ++ derived_pairs (window w) in
  let l1 := fresh (dom (heap w)) in
  let l2 := fresh (dom (<[l1 := all]> (heap w))) in
  exists t,
    getRetainedState w =
      (Ok l2, with_trace t (with_heap (<[l2 := new_Set all]> (<[l1 := all]> (heap w))) w)).
Proof.
  intros hist all l1 l2. unfold getRetainedState.
  unfold bind at 1, get. unfold bind at 1, read. unfold bind at 1, alloc.
  fold hist. fold l1. unfold bind at 1.
  edestruct (forEach_pairs cmds_to_check l1 hist
               (with_heap (<[l1 := hist]> (heap w)) w)) as (t & Hloop).
  { simpl. apply lookup_insert_eq. }
  rewrite Hloop. simpl. unfold bind, read, alloc, ret, array_at. simpl.
  rewrite insert_insert_eq, lookup_insert_eq. simpl.
  fold (derived_pairs (window w)). fold all. fold l2.
  by exists t.
Qed.

Lemma truthy_Some a : truthy (Some a) = true <-> a <> EmptyString.
Proof.
  simpl. destruct (String.eqb_spec a ""); simpl; split; try done.
Qed.

Lemma derived_pairs_elem_of win x :
  x ∈ derived_pairs win <->
  exists name a, name ∈ cmds_to_check /\ query_answer win name = Some a /\
                 a <> EmptyString /\ x = (name ++ "," ++ a)%string.
Proof.
  unfold derived_pairs. rewrite list_elem_of_omap. split.
  - intros (name & Hin & Hp). unfold derived_pair in Hp.
    destruct (query_answer win name) as [a|] eqn:Ha; [|done].
    destruct (truthy (Some a)) eqn:Ht; [|done]. injection Hp as <-.
    exists name, a. split_conj; try done. by apply truthy_Some.
  - intros (name & a & Hin & Ha & Hne & ->). exists name. split; [done|].
    unfold derived_pair. rewrite Ha.
    apply truthy_Some in Hne. by rewrite Hne.
Qed.

(** C6.  The array [getRetainedState] returns has no duplicates; it holds
    the command history and the derived [name,value] pairs and nothing
    else; the distinct history entries come first, followed by the pairs
    that are not in the history; every entry stands where its first
    occurrence in history-then-pairs puts it; and a pair is derived for a
    name exactly when [query] returns a non-empty value for it. *)
Theorem getRetainedState_contents (w : World) :
  exists l w',
    getRetainedState w = (Ok l, w') /\
    let hist := array_at w (cmdsHistory w) in
    let pairs := derived_pairs (window w) in
    let result := array_at w' l in
    NoDup result /\
    (forall x, x ∈ result <-> x ∈ hist \/ x ∈ pairs) /\
    (exists rest,
       result = new_Set hist ++ rest /\
       forall x, x ∈ rest <-> x ∈ pairs /\ x ∉ hist) /\
    (forall l1 x l2,
       hist ++ pairs = l1 ++ x :: l2 -> x ∉ l1 ->
       exists rest, result = new_Set l1 ++ x :: rest) /\
    (forall x,
       x ∈ pairs <->
       exists name a,
         name ∈ cmds_to_check /\ fst (query name w) = Ok (Some a) /\
         a <> EmptyString /\ x = (name ++ "," ++ a)%string).
Proof.
  destruct (getRetainedState_eq w) as (t & Heq). simpl in Heq.
  eexists _, _. split; [exact Heq|].
  intros hist pairs result.
  assert (Hres : result = new_Set (hist ++ pairs)).
  { subst result. unfold array_at. simpl. by rewrite lookup_insert_eq. }
  rewrite Hres. split_conj.
  - apply new_Set_NoDup.
  - intros x. by rewrite new_Set_elem_of, elem_of_app.
  - apply new_Set_app.
  - intros l1 x l2 -> Hx. by apply new_Set_first_occurrence.
  - intros x. subst pairs. rewrite derived_pairs_elem_of.
    split; intros (name & a & Hin & Ha & Hne & ->); exists name, a;
      split_conj; try done;
      destruct (query_spec name w) as (t' & Hq); rewrite Hq in *; simpl in *;
      congruence.
Qed.

(** One call: the arrays that existed keep their contents, and the array
    returned is a new one. *)
Lemma getRetainedState_keeps w :
  exists l w',
    getRetainedState w = (Ok l, w') /\
    cmdsHistory w' = cmdsHistory w /\
    window w' = window w /\
    (forall a, is_Some (heap w !! a) -> heap w' !! a = heap w !! a /\ l <> a) /\
    array_at w' l = new_Set (array_at w (cmdsHistory w) ++ derived_pairs (window w)).
Proof.
  destruct (getRetainedState_eq w) as (t & Heq). simpl in Heq.
  set (all := array_at w (cmdsHistory w) ++ derived_pairs (window w)) in *.
  set (l1 := fresh (dom (heap w))) in *.
  set (l2 := fresh (dom (<[l1 := all]> (heap w)))) in *.
  assert (Hl1 : forall a, is_Some (heap w !! a) -> l1 <> a).
  { intros a Ha <-. apply elem_of_dom in Ha. by apply is_fresh in Ha. }
  assert (Hl2 : forall a, is_Some (heap w !! a) -> l2 <> a).
  { intros a Ha <-.
    apply (is_fresh (dom (<[l1 := all]> (heap w)))). fold l2.
    apply elem_of_dom. destruct (decide (l1 = l2)) as [<-|Hne].
    - rewrite lookup_insert_eq. eauto.
    - by rewrite lookup_insert_ne. }
  eexists _, _. split; [exact Heq|]. simpl. split_conj; try done.
  - intros a Ha. split; [|by apply Hl2].
    rewrite lookup_insert_ne by by apply Hl2.
    by rewrite lookup_insert_ne by by apply Hl1.
  - unfold array_at at 1. simpl. by rewrite lookup_insert_eq.
Qed.

(** C10.  [getRetainedState] leaves the command history alone: the array
    [this.cmdsHistory] holds what it held, the array returned is another
    one, no array that existed before is changed, and a second call finds
    the same history and returns the same contents. *)
Theorem getRetainedState_frame (w : World) :
  is_Some (heap w !! cmdsHistory w) ->
  exists l w',
    getRetainedState w = (Ok l, w') /\
    cmdsHistory w' = cmdsHistory w /\
    array_at w' (cmdsHistory w') = array_at w (cmdsHistory w) /\
    l <> cmdsHistory w /\
    (forall a, is_Some (heap w !! a) -> heap w' !! a = heap w !! a) /\
    (exists l2 w2,
       getRetainedState w' = (Ok l2, w2) /\
       array_at w2 (cmdsHistory w2) = array_at w (cmdsHistory w) /\
       array_at w2 l2 = array_at w' l).
Proof.
  intros Hhist.
  destruct (getRetainedState_keeps w) as (l & w' & Heq & Hc & Hw & Hframe & Hres).
  assert (Hkeep : array_at w' (cmdsHistory w') = array_at w (cmdsHistory w)).
  { unfold array_at. rewrite Hc. by destruct (Hframe _ Hhist) as [-> _]. }
  exists l, w'. split_conj; try done.
  - by destruct (Hframe _ Hhist).
  - intros a Ha. by destruct (Hframe _ Ha).
  - destruct (getRetainedState_keeps w') as (l2 & w2 & Heq2 & Hc2 & Hw2 & Hframe2 & Hres2).
    assert (Hhist' : is_Some (heap w' !! cmdsHistory w')).
    { rewrite Hc. by destruct (Hframe _ Hhist) as [-> _]. }
    exists l2, w2. split_conj; try done.
    + unfold array_at at 1. rewrite Hc2.
      destruct (Hframe2 _ Hhist') as [-> _]. exact Hkeep.
    + by rewrite Hres2, Hres, Hkeep, Hw.
Qed.

Lemma getRetainedState_frame_witness :
  let w := snd (sendCommand "sphere,1"
                  (constructor {| window_Module := None; module_loaded := false |})) in
  exists l w',
    getRetainedState w = (Ok l, w') /\
    cmdsHistory w' = cmdsHistory w /\
    array_at w' (cmdsHistory w') = array_at w (cmdsHistory w) /\
    l <> cmdsHistory w /\
    (forall a, is_Some (heap w !! a) -> heap w' !! a = heap w !! a) /\
    (exists l2 w2,
       getRetainedState w' = (Ok l2, w2) /\
       array_at w2 (cmdsHistory w2) = array_at w (cmdsHistory w) /\
       array_at w2 l2 = array_at w' l).
Proof.
  apply (getRetainedState_frame
           (snd (sendCommand "sphere,1"
                   (constructor {| window_Module := None; module_loaded := false |})))).
  vm_compute. eauto.
Defined.

End RetainedStateFacts.

(** ** The bridge without a module *)

Section GatingFacts.
Import Bridge.
Local Open Scope js_scope.

Lemma module_calls_app t1 t2 :
  module_calls (t1 ++ t2) = module_calls t1 ++ module_calls t2.
Proof. unfold module_calls. apply List.filter_app. Qed.









End GatingFacts.

(** ** Writing an asset into the module *)

Section AssetFacts.
Import Bridge.
Local Open Scope js_scope.
Local Open Scope nat_scope.

Variables (name : string) (data : list Z) (updateLoaderCallback : bool).

Lemma tryWrite_wait a w :
  a < 20 -> fs_ready (window w) = false ->
  tryWrite name data updateLoaderCallback a w =
    Awaiting w (Timeout 500)
      (fun _ w' => tryWrite name data updateLoaderCallback (S a) w').
Proof.
  intros Ha Hr. rewrite (tryWrite_equation_1 name data updateLoaderCallback a).
  destruct (le_lt_dec (S a) 20); [|lia]. simpl. by rewrite Hr.
Qed.

Lemma tryWrite_ready a w :
  a < 20 -> fs_ready (window w) = true ->
  tryWrite name data updateLoaderCallback a w =
    lift (writeAsset name data updateLoaderCallback) w.
Proof.
  intros Ha Hr. rewrite (tryWrite_equation_1 name data updateLoaderCallback a).
  destruct (le_lt_dec (S a) 20); [|lia]. simpl. by rewrite Hr.
Qed.

Lemma tryWrite_timeout a w :
  20 <= a ->
  tryWrite name data updateLoaderCallback a w =
    Returned
      (with_trace (trace w ++ [ConsoleError "Timeout waiting for WASM filesystem"]) w)
      tt.
Proof.
  intros Ha. rewrite (tryWrite_equation_1 name data updateLoaderCallback a).
  destruct (le_lt_dec (S a) 20); [lia|]. reflexivity.
Qed.

(** The [catch] of [tryWrite] lets nothing out. *)
Lemma writeAsset_returns w :
  exists w', writeAsset name data updateLoaderCallback w = (Ok tt, w').
Proof.
  unfold writeAsset, try_catch.
  match goal with
  | |- context [match ?body w with _ => _ end] =>
      destruct (body w) as [[[]|e] w1]
  end; [eauto|]. unfold emit. eauto.
Qed.

Lemma lift_writeAsset w :
  lift (writeAsset name data updateLoaderCallback) w =
    Returned (snd (writeAsset name data updateLoaderCallback w)) tt.
Proof.
  unfold lift. destruct (writeAsset_returns w) as (w' & ->). reflexivity.
Qed.

(** What the successful write asks of the module. *)
Lemma writeAsset_calls w m write f r :
  window_Module (window w) = Some m ->
  FS m = Some write -> write name data = Ok tt ->
  ccall m = Some f ->
  f "loadAsset"%string [name; toLowerCase (pop (split "." name))] = Ok r ->
  module_calls (trace (snd (writeAsset name data updateLoaderCallback w))) =
    module_calls (trace w) ++
    [WriteFile name data;
     CCall "loadAsset" [name; toLowerCase (pop (split "." name))]] ++
    if String.eqb (toLowerCase (pop (split "." name))) "hdr"
    then [CCall "command" ["cubemap,on"%string]]
    else [].
Proof.
  intros Hm Hfs Hw Hc Hf.
  destruct w as [[mo loaded] h c a t]. simpl in Hm. subst mo.
  destruct m as [cc fs]. simpl in Hfs, Hc. subst cc fs.
  unfold writeAsset, try_catch, bind, when, emit, FS_writeFile, logCallback, emit,
    Module_ccall, ret. simpl.
  destruct updateLoaderCallback; simpl; rewrite Hw; simpl; rewrite Hf; simpl;
    rewrite orb_false_r;
    destruct (String.eqb _ "hdr"); simpl;
    unfold sendCommand, bind, when, get, logCallback, emit, try_catch,
      Module_ccall, ret; simpl;
    try destruct (f "command"%string _); simpl;
    rewrite ?module_calls_app; simpl; rewrite ?app_nil_r, <- ?app_assoc;
    reflexivity.
Qed.

Lemma tryWrite_never_rejects a w :
  never_rejects (tryWrite name data updateLoaderCallback a w).
Proof.
  remember (20 - a) as k eqn:Hk. revert a w Hk.
  induction k as [|k IH]; intros a w Hk.
  - rewrite tryWrite_timeout by lia. constructor.
  - destruct (fs_ready (window w)) eqn:Hr.
    + rewrite tryWrite_ready, lift_writeAsset by (done || lia). constructor.
    + rewrite tryWrite_wait by (done || lia). constructor.
      intros _ w'. apply IH. lia.
Qed.

(** The promise settles, resolved, within the waits that are left. *)
Lemma settle_tryWrite env answer k a i w :
  a + k = 20 ->
  exists n w',
    settle k env answer i (tryWrite name data updateLoaderCallback a w)
      = Some (n, true, w') /\ i <= n <= i + k.
Proof.
  revert a i w. induction k as [|k IH]; intros a i w Hk.
  - rewrite tryWrite_timeout by lia. simpl. eexists _, _. split; [done|lia].
  - destruct (fs_ready (window w)) eqn:Hr.
    + rewrite tryWrite_ready, lift_writeAsset by (done || lia). simpl.
      eexists _, _. split; [done|lia].
    + rewrite tryWrite_wait by (done || lia). simpl.
      destruct (IH (S a) (S i) (env i w)) as (n & w' & Hs & Hn); [lia|].
      exists n, w'. split; [done|lia].
Qed.

(** Never ready: the twenty-first entry gives up. *)
Lemma settle_tryWrite_timeout env answer w k a :
  a + k = 20 ->
  (forall i, a <= i < 20 -> fs_ready (window (world_at env w i)) = false) ->
  settle k env answer a
    (tryWrite name data updateLoaderCallback a (world_at env w a))
  = Some (20, true,
          with_trace (trace (world_at env w 20) ++
                      [ConsoleError "Timeout waiting for WASM filesystem"])
                     (world_at env w 20)).
Proof.
  revert a. induction k as [|k IH]; intros a Hk Hnot.
  - assert (a = 20) as -> by lia. rewrite tryWrite_timeout by lia. reflexivity.
  - rewrite tryWrite_wait by (lia || (apply Hnot; lia)). simpl.
    apply (IH (S a)); [lia|]. intros i Hi. apply Hnot. lia.
Qed.

(** Ready at check [j] for the first time: the write happens then. *)
Lemma settle_tryWrite_ready env answer w j k a :
  a + k = 20 -> a <= j < 20 ->
  (forall i, a <= i < j -> fs_ready (window (world_at env w i)) = false) ->
  fs_ready (window (world_at env w j)) = true ->
  settle k env answer a
    (tryWrite name data updateLoaderCallback a (world_at env w a))
  = Some (j, true,
          snd (writeAsset name data updateLoaderCallback (world_at env w j))).
Proof.
  revert a. induction k as [|k IH]; intros a Hk Hj Hnot Hready; [lia|].
  destruct (decide (a = j)) as [->|Hne].
  - rewrite tryWrite_ready, lift_writeAsset by (done || lia). reflexivity.
  - rewrite tryWrite_wait by (lia || (apply Hnot; lia)). simpl.
    apply (IH (S a)); [lia|lia| |done]. intros i Hi. apply Hnot. lia.
Qed.

End AssetFacts.

Section BatchFacts.
Import Bridge.
Local Open Scope nat_scope.

Lemma run_catch_never_rejects {A} (r : Run World Req Rep A) h :
  (forall e s, never_rejects (h e s)) -> never_rejects (run_catch r h).
Proof.
  intros Hh. induction r as [s a|s e|s q k IH]; simpl.
  - constructor.
  - apply Hh.
  - constructor. intros rep s'. apply IH.
Qed.

(** The promise made for an asset never rejects: a bad data URL and a
    failed download are both caught. *)
Lemma assetPromise_never_rejects atob name url cb w :
  never_rejects (assetPromise atob name url cb w).
Proof.
  unfold assetPromise. destruct (startsWith url "data:").
  - destruct (decodeBase64 atob url).
    + apply tryWrite_never_rejects.
    + constructor.
  - apply run_catch_never_rejects. intros e s. constructor.
Qed.

Lemma start_all_never_reject atob assets cb w :
  Forall never_rejects (fst (start_all atob assets cb w)).
Proof.
  revert w. induction assets as [|[name url] rest IH]; intros w; simpl.
  - constructor.
  - specialize (IH (state_of (assetPromise atob name url cb w))).
    destruct (start_all atob rest cb _) as [rs w']. simpl in *.
    constructor; [apply assetPromise_never_rejects|done].
Qed.

Lemma pending_step_never_reject b b' :
  pending_step b b' ->
  Forall never_rejects (promises b) -> Forall never_rejects (promises b').
Proof.
  intros [b0 i s q k rep Hi|b0 f] Hall; simpl; [|done].
  apply Forall_insert; [done|].
  rewrite Forall_lookup in Hall. specialize (Hall i _ Hi).
  inversion Hall as [|s0 q0 k0 Hk]; subst.
  match goal with
  | H : existT _ _ = existT _ _ |- _ =>
      apply Eqdep_dec.inj_pair2_eq_dec in H; [subst|]
  end.
  - apply Hk.
  - intros x y. destruct x, y; try (right; discriminate);
      [destruct (decide (ms = ms0)) | destruct (decide (url = url0))
       | destruct (decide (url = url0))];
      first [left; congruence | right; congruence].
Qed.

(** A batch asset load never fails as a whole. *)
Lemma loadAssetsFromGist_never_rejects atob assets cb w b :
  rtc pending_step (loadAssetsFromGist atob assets cb w) b ->
  ~ all_rejected b.
Proof.
  intros Hsteps.
  assert (Hall : Forall never_rejects (promises b)).
  { revert b Hsteps. apply rtc_ind_r.
    - unfold loadAssetsFromGist.
      pose proof (start_all_never_reject atob assets cb (with_externalAssets assets w)) as H.
      destruct (start_all _ _ _ _) as [rs w']. exact H.
    - intros b1 b2 _ Hstep IH. by apply (pending_step_never_reject b1). }
  intros (s & e & Hin). rewrite Forall_forall in Hall.
  specialize (Hall _ Hin). inversion Hall.
Qed.

(** C9.  [loadToWasm] checks readiness at most 20 times, 500 ms apart, and
    its promise always resolves: whatever happens on the page meanwhile it
    settles within 20 waits and never rejects.  The first time the
    filesystem is ready it writes the bytes, registers the asset under the
    file's extension and, for [hdr], sends [cubemap,on]; if the filesystem
    is never ready it logs the timeout and resolves all the same.  Hence
    none of the promises of a batch load rejects, whatever the order in
    which they are resumed, and the batch does not fail. *)
Theorem loadToWasm_settles (name : string) (data : list Z)
    (updateLoaderCallback : bool) (w : World) (env : nat -> World -> World)
    (answer : nat -> forall q, Rep q) :
  (exists n w',
     settle 20 env answer 0 (loadToWasm name data updateLoaderCallback w)
       = Some (n, true, w') /\ n <= 20) /\
  never_rejects (loadToWasm name data updateLoaderCallback w) /\
  (forall a w0,
     a < 20 -> fs_ready (window w0) = false ->
     tryWrite name data updateLoaderCallback a w0 =
       Awaiting w0 (Timeout 500)
         (fun _ w' => tryWrite name data updateLoaderCallback (S a) w')) /\
  ((forall i, i < 20 -> fs_ready (window (world_at env w i)) = false) ->
     settle 20 env answer 0 (loadToWasm name data updateLoaderCallback w)
       = Some (20, true,
               with_trace (trace (world_at env w 20) ++
                           [ConsoleError "Timeout waiting for WASM filesystem"])
                          (world_at env w 20))) /\
  (forall j,
     j < 20 ->
     (forall i, i < j -> fs_ready (window (world_at env w i)) = false) ->
     fs_ready (window (world_at env w j)) = true ->
     settle 20 env answer 0 (loadToWasm name data updateLoaderCallback w)
       = Some (j, true,
               snd (writeAsset name data updateLoaderCallback (world_at env w j)))) /\
  (forall w0 m write f r,
     window_Module (window w0) = Some m ->
     FS m = Some write -> write name data = Ok tt ->
     ccall m = Some f ->
     f "loadAsset"%string [name; toLowerCase (pop (split "." name))] = Ok r ->
     module_calls (trace (snd (writeAsset name data updateLoaderCallback w0))) =
       module_calls (trace w0) ++
       [WriteFile name data;
        CCall "loadAsset" [name; toLowerCase (pop (split "." name))]] ++
       if String.eqb (toLowerCase (pop (split "." name))) "hdr"
       then [CCall "command" ["cubemap,on"%string]]
       else []) /\
  (forall atob assets b,
     rtc pending_step (loadAssetsFromGist atob assets updateLoaderCallback w) b ->
     ~ all_rejected b).
Proof.
  unfold loadToWasm. split_conj.
  - destruct (settle_tryWrite name data updateLoaderCallback env answer 20 0 0 w)
      as (n & w' & Hs & Hn); [done|].
    exists n, w'. split; [done|lia].
  - apply tryWrite_never_rejects.
  - intros a w0. apply tryWrite_wait.
  - intros Hnot.
    apply (settle_tryWrite_timeout name data updateLoaderCallback env answer w 20 0);
      [done|].
    intros i Hi. apply Hnot. lia.
  - intros j Hj Hnot Hready.
    apply (settle_tryWrite_ready name data updateLoaderCallback env answer w j 20 0);
      [done|lia| |done].
    intros i Hi. apply Hnot. lia.
  - apply writeAsset_calls.
  - intros atob assets b. apply loadAssetsFromGist_never_rejects.
Qed.

End BatchFacts.

(** ** Loading a gist *)

Section LoadGistFacts.
Import GitHub.
Local Open Scope async_scope.

Variable JSON_parse : string -> Outcome (option Project).













End LoadGistFacts.



(** ** Saving a gist *)

Section SaveGistFacts.
Import GitHub.
Local Open Scope async_scope.

Variable JSON_stringify : Project -> Outcome string.





End SaveGistFacts.



(** ** The model at work *)

(** A 404 on the gist is one of the failures of C5, and the load ends with
    the identifier reset and the message reported. *)
Example loadGist_not_found :
  let s := GitHub.constructor (GitHub.mkStorage None None) "2024-01-01T00:00:00.000Z" in
  let cb := GitHub.mkCallbacks true true true true in
  let gone := Ok (GitHub.mkResponse false "Not Found") in
  GitHub.load_fails GitHub.toy_parse "abc" [GitHub.quiet gone] "Not Found" /\
  match GitHub.drive [GitHub.quiet gone] (GitHub.loadGist GitHub.toy_parse "abc" cb s) with
  | Some (out, sf) =>
      out = Ok tt /\ GitHub.currentGistId sf = None /\
      List.last (GitHub.trace sf) GitHub.CbStart = GitHub.CbError "Not Found"
  | None => False
  end.
Proof.
  split.
  - apply (GitHub.fails_status GitHub.toy_parse "abc" (fun s => s)
             (GitHub.fetch_reply (Ok (GitHub.mkResponse false "Not Found")))
             (GitHub.mkResponse false "Not Found")); reflexivity.
  - vm_compute. split_conj; reflexivity.
Qed.

(** Line 12 of a twenty-line document gets decorated. *)
Example error_line_twelve :
  let s := Editor.constructor {| Editor.c_frag := "a"; Editor.c_vert := "b" |} 0 in
  elements (Editor.errorLines
              (Editor.editor (Editor.onWasmStderr (fun _ => 20%nat)
                                "0:12:syntax error" s)))
  = [11%nat].
Proof. vm_compute. reflexivity. Qed.

(** An [hdr] asset on a page whose module becomes ready during the fourth
    wait: written, registered, and the cube map switched on. *)
Example loadToWasm_hdr :
  let m := {| Bridge.ccall := Some (fun _ _ => Ok None);
              Bridge.FS := Some (fun _ _ => Ok tt) |} in
  let ready := {| Bridge.window_Module := Some m; Bridge.module_loaded := true |} in
  let w := Bridge.constructor
             {| Bridge.window_Module := None; Bridge.module_loaded := false |} in
  let env := fun i w => if (i =? 3)%nat then Bridge.with_window ready w else w in
  let answer := fun (_ : nat) (q : Bridge.Req) =>
                  match q return Bridge.Rep q with
                  | Bridge.Timeout _ => tt
                  | Bridge.Fetch _ => Exn "offline"
                  | Bridge.ArrayBuffer _ => Exn "offline"
                  end in
  match Bridge.settle 20 env answer 0 (Bridge.loadToWasm "sky.HDR" [1; 2] false w) with
  | Some (n, resolved, w') =>
      n = 4%nat /\ resolved = true /\
      Bridge.module_calls (Bridge.trace w') =
        [Bridge.WriteFile "sky.HDR" [1; 2];
         Bridge.CCall "loadAsset" ["sky.HDR"; "hdr"]%string;
         Bridge.CCall "command" ["cubemap,on"%string]]
  | None => False
  end.
Proof. vm_compute. split_conj; reflexivity. Qed.

(** ** The theorems at concrete inputs *)

Lemma error_line_mapping_witness :
  let s := Editor.constructor {| Editor.c_frag := "a"; Editor.c_vert := "b" |} 0 in
  Editor.errorLines
    (Editor.editor (Editor.onWasmStderr (fun _ => 20%nat) "0:12:syntax error" s))
  = {[ 11%nat ]} ∪ Editor.errorLines (Editor.editor s).
Proof.
  apply (proj1 (proj2 (error_line_mapping (fun _ => 20%nat)
           (Editor.constructor {| Editor.c_frag := "a"; Editor.c_vert := "b" |} 0)))).
  simpl. lia.
Defined.



Lemma loadToWasm_settles_witness :
  let w := Bridge.constructor
             {| Bridge.window_Module := None; Bridge.module_loaded := false |} in
  let answer := fun (_ : nat) (q : Bridge.Req) =>
                  match q return Bridge.Rep q with
                  | Bridge.Timeout _ => tt
                  | Bridge.Fetch _ => Exn "offline"
                  | Bridge.ArrayBuffer _ => Exn "offline"
                  end in
  Bridge.settle 20 (fun _ w => w) answer 0 (Bridge.loadToWasm "a.png" [137; 80] true w)
  = Some (20%nat, true,
          Bridge.with_trace
            [Bridge.ConsoleError "Timeout waiting for WASM filesystem"] w).
Proof.
  pose proof (proj1 (proj2 (proj2 (proj2 (loadToWasm_settles "a.png" [137; 80] true
           (Bridge.constructor
              {| Bridge.window_Module := None; Bridge.module_loaded := false |})
           (fun _ w => w)
           (fun (_ : nat) (q : Bridge.Req) =>
              match q return Bridge.Rep q with
              | Bridge.Timeout _ => tt
              | Bridge.Fetch _ => Exn "offline"
              | Bridge.ArrayBuffer _ => Exn "offline"
              end)))))) as H.
  simpl in *. apply H. intros i _. induction i; [reflexivity|exact IHi].
Defined.

(* ===================================================================== *)
(** * Further properties of the editor *)
(* ===================================================================== *)

Section EditorBufferFacts.
Import Editor.
Local Open Scope nat_scope.

(** The ['change'] listeners leave the document and the buffers alone,
    however many are installed. *)
Lemma fold_changeListener_same_document ls s :
  same_document s (fold_left (fun s l => changeListener l s) ls s).
Proof.
  assert (Hgen : forall s0, same_document s0 s ->
            same_document s0 (fold_left (fun s l => changeListener l s) ls s)).
  { revert s. induction ls as [|l ls IH]; intros s s0 Hdoc; simpl; [done|].
    apply IH.
    destruct (changeListener_same_document l s) as (H1 & H2 & H3 & H4 & H5 & H6 & H7).
    destruct Hdoc as (G1 & G2 & G3 & G4 & G5 & G6 & G7).
    repeat split; congruence. }
  apply Hgen. repeat split.
Qed.

Lemma setValue_document v s :
  value (editor (setValue v s)) = v /\
  mode (editor (setValue v s)) = mode (editor s) /\
  activeTab (setValue v s) = activeTab s /\
  content (setValue v s) = content s /\
  invoked (setValue v s) = invoked s.
Proof.
  unfold setValue, signalChange.
  set (s1 := with_editor _ s).
  destruct (fold_changeListener_same_document (listeners s1) s1)
    as (G1 & G2 & G3 & G4 & G5 & G6 & G7).
  split_conj; [exact G6|exact G7|exact G1|exact G2|exact G3].
Qed.

(** What [switchTab] to another buffer does to the buffers and the text. *)
Lemma switchTab_buffers type onSwitch s :
  type <> activeTab s ->
  activeTab (switchTab type onSwitch s) = type /\
  content (switchTab type onSwitch s)
    = setBuffer (content s) (activeTab s) (getValue s) /\
  getValue (switchTab type onSwitch s) = getBuffer (content s) type.
Proof.
  intros Hne. unfold switchTab. rewrite decide_False by done.
  set (s1 := match updateTimeout s with Some _ => _ | None => s end).
  assert (H1 : activeTab s1 = activeTab s /\ content s1 = content s /\
               editor s1 = editor s).
  { subst s1. destruct (updateTimeout s), onSwitch; done. }
  destruct H1 as (Ha1 & Hc1 & He1).
  set (s4 := match type with frag => _ | vert => _ end).
  assert (H4 : activeTab s4 = type /\
               content s4 = setBuffer (content s) (activeTab s) (getValue s)).
  { subst s4. unfold getValue. rewrite Ha1, Hc1, He1. destruct type; done. }
  destruct H4 as (Ha4 & Hc4).
  destruct (setValue_document (getBuffer (content s4) (activeTab s4)) s4)
    as (Hv & _ & Ha & Hc & _).
  split_conj.
  - by rewrite Ha.
  - by rewrite Hc.
  - unfold getValue at 1. rewrite Hv, Hc4, Ha4.
    destruct type, (activeTab s); done.
Qed.

(** X1.  [setContent] stores the text in the named buffer and leaves the
    other buffer alone; it writes through to the widget exactly when the
    buffer is the active one, and when it is not the call changes nothing
    but that buffer: the widget keeps its text. *)
Theorem setContent_buffers (s : State) (type : TabKind) (v : string) :
  getContent (Some type) (setContent type v s) = v /\
  (forall k, k <> type ->
     getContent (Some k) (setContent type v s) = getContent (Some k) s) /\
  activeTab (setContent type v s) = activeTab s /\
  (type = activeTab s -> getValue (setContent type v s) = v) /\
  (type <> activeTab s ->
     setContent type v s = with_content (setBuffer (content s) type v) s /\
     getValue (setContent type v s) = getValue s).
Proof.
  unfold setContent, getContent. simpl.
  destruct (setValue_document v (with_content (setBuffer (content s) type v) s))
    as (Hv & _ & Ha & Hc & _).
  split_conj.
  - case_decide; [rewrite Hc|]; simpl; by destruct type.
  - intros k Hk. case_decide; [rewrite Hc|]; simpl; by destruct type, k.
  - case_decide; [by rewrite Ha|done].
  - intros ->. rewrite decide_True by done. exact Hv.
  - intros Hne. by rewrite decide_False.
Qed.

(** X2.  Switching to the other buffer and back brings back the text the
    widget showed, which is then also what the first buffer's slot holds;
    the other buffer is as it was. *)
Theorem switchTab_round_trip (s : State) (type : TabKind) (f g : option nat) :
  type <> activeTab s ->
  let s2 := switchTab (activeTab s) g (switchTab type f s) in
  activeTab s2 = activeTab s /\
  getValue s2 = getValue s /\
  getBuffer (content s2) (activeTab s) = getValue s /\
  getBuffer (content s2) type = getBuffer (content s) type.
Proof.
  intros Hne s2. subst s2.
  destruct (switchTab_buffers type f s Hne) as (Ha1 & Hc1 & Hv1).
  destruct (switchTab_buffers (activeTab s) g (switchTab type f s))
    as (Ha2 & Hc2 & Hv2); [by rewrite Ha1|].
  rewrite Ha2, Hv2, Hc2, Hc1, Ha1, Hv1.
  destruct type, (activeTab s); done.
Qed.

Lemma switchTab_round_trip_witness :
  let s := after_edit "typed" 5 {| callback := 7; debounceMs := 300 |}
             (onChange 7 300 (constructor {| c_frag := "a"; c_vert := "b" |} 0)) in
  let s2 := switchTab (activeTab s) None (switchTab vert (Some 9) s) in
  activeTab s2 = activeTab s /\
  getValue s2 = getValue s /\
  getBuffer (content s2) (activeTab s) = getValue s /\
  getBuffer (content s2) vert = getBuffer (content s) vert.
Proof.
  apply (switchTab_round_trip
           (after_edit "typed" 5 {| callback := 7; debounceMs := 300 |}
              (onChange 7 300 (constructor {| c_frag := "a"; c_vert := "b" |} 0)))
           vert (Some 9) None).
  discriminate.
Defined.

(** X3.  In every state the editor reaches, at most one timer is pending,
    and it is the one [updateTimeout] names. *)
Theorem reachable_single_timer (s : State) :
  reachable s ->
  (forall id, is_Some (timers s !! id) -> updateTimeout s = Some id) /\
  (forall id1 id2,
     is_Some (timers s !! id1) -> is_Some (timers s !! id2) -> id1 = id2) /\
  size (timers s) <= 1.
Proof.
  intros Hr. destruct (reachable_well_formed s Hr) as (W1 & _ & _).
  assert (Huniq : forall id1 id2,
            is_Some (timers s !! id1) -> is_Some (timers s !! id2) -> id1 = id2).
  { intros id1 id2 H1 H2. apply W1 in H1, H2. congruence. }
  split_conj; [exact W1|exact Huniq|].
  rewrite <- length_map_to_list.
  destruct (map_to_list (timers s)) as [|[i1 x1] [|[i2 x2] rest]] eqn:Hl;
    [simpl; lia|simpl; lia|exfalso].
  pose proof (NoDup_fst_map_to_list (timers s)) as Hnd. rewrite Hl in Hnd.
  assert (i1 = i2) as ->.
  { apply Huniq; [exists x1|exists x2]; apply elem_of_map_to_list; rewrite Hl.
    - left.
    - right. left. }
  simpl in Hnd. apply NoDup_cons in Hnd as [Hnot _]. apply Hnot. left.
Qed.

Lemma reachable_single_timer_witness :
  let s := after_edit "typed" 5 {| callback := 7; debounceMs := 300 |}
             (onChange 7 300 (constructor {| c_frag := "a"; c_vert := "b" |} 0)) in
  (forall id, is_Some (timers s !! id) -> updateTimeout s = Some id) /\
  (forall id1 id2,
     is_Some (timers s !! id1) -> is_Some (timers s !! id2) -> id1 = id2) /\
  size (timers s) <= 1.
Proof.
  apply (reachable_single_timer
           (after_edit "typed" 5 {| callback := 7; debounceMs := 300 |}
              (onChange 7 300 (constructor {| c_frag := "a"; c_vert := "b" |} 0)))).
  apply (reach_step (onChange 7 300 (constructor {| c_frag := "a"; c_vert := "b" |} 0))
           5 (Edit "typed")).
  - apply reach_onChange, reach_new.
  - apply step_edit; [apply well_formed_onChange, well_formed_constructor|done|].
    simpl. lia.
Defined.

(** X4.  A programmatic [setContent] on the active buffer never reaches the
    change callback: the timer it starts is the only one pending, and when
    it runs it finds the text equal to the buffer and calls nothing. *)
Theorem setContent_never_notifies (s : State) (l : Listener) (t : nat) (v : string) :
  well_formed s -> listeners s = [l] -> now s <= t ->
  exists s1,
    step t (SetContent (activeTab s) v) s = Some s1 /\
    invoked s1 = invoked s /\
    forall t' id s2, step t' (Fire id) s1 = Some s2 -> invoked s2 = invoked s.
Proof.
  intros Hwf Hl Ht.
  set (s0 := with_content (setBuffer (content s) (activeTab s) v) (with_now t s)).
  assert (Hw0 : well_formed s0) by by apply (well_formed_ext s).
  assert (Hstep : step t (SetContent (activeTab s) v) s = Some (after_edit v t l s0)).
  { unfold step. destruct (Nat.ltb_spec t (now s)); [lia|].
    unfold setContent. fold s0. rewrite decide_True by done.
    unfold setValue, signalChange. simpl. rewrite Hl. simpl.
    rewrite changeListener_eq; [reflexivity|].
    by apply (well_formed_ext s0). }
  eexists. split; [exact Hstep|]. split; [reflexivity|].
  intros t' id s2 Hfire. rewrite step_fire_after_edit in Hfire.
  case_decide; [|done]. injection Hfire as <-. simpl.
  rewrite decide_True; [done|]. by destruct (activeTab s).
Qed.

Lemma setContent_never_notifies_witness :
  let s := onChange 7 300 (constructor {| c_frag := "a"; c_vert := "b" |} 0) in
  exists s1,
    step 10 (SetContent (activeTab s) "loaded") s = Some s1 /\
    invoked s1 = invoked s /\
    forall t' id s2, step t' (Fire id) s1 = Some s2 -> invoked s2 = invoked s.
Proof.
  apply (setContent_never_notifies
           (onChange 7 300 (constructor {| c_frag := "a"; c_vert := "b" |} 0))
           {| callback := 7; debounceMs := 300 |} 10 "loaded").
  - apply well_formed_onChange, well_formed_constructor.
  - reflexivity.
  - simpl. lia.
Defined.

End EditorBufferFacts.

Section DecorationFacts.
Import Editor.
Local Open Scope nat_scope.

Lemma span_digits_inv r ds rest :
  span_digits r = (ds, rest) ->
  r = (ds ++ rest)%string /\ all_digits ds = true.
Proof.
  revert ds rest. induction r as [|c r IH]; intros ds rest H; simpl in H.
  - injection H as <- <-. done.
  - destruct (is_digit c) eqn:Hc.
    + destruct (span_digits r) as [ds' rest'] eqn:Hr. injection H as <- <-.
      destruct (IH ds' rest' eq_refl) as [-> Hd]. simpl. by rewrite Hc, Hd.
    + injection H as <- <-. done.
Qed.

(** X5.  The error pattern accepts exactly the texts ["0:"], digits, [":"],
    message: whatever it captures spells the text back, the line group is a
    non-empty run of digits and the message has no line break.  So an event
    whose text is not of that form changes nothing. *)
Theorem errorRegex_match_exact (lineCount : string -> nat) (text : string) (s : State) :
  (forall ds msg,
     errorRegex_match text = Some (ds, msg) ->
     text = ("0:" ++ ds ++ ":" ++ msg)%string /\ ds <> EmptyString /\
     all_digits ds = true /\ no_line_terminator msg = true) /\
  (errorRegex_match text = None -> onWasmStderr lineCount text s = s).
Proof.
  split.
  - intros ds msg H. unfold errorRegex_match in H.
    destruct text as [|c0 t1]; [done|].
    destruct c0 as [[] [] [] [] [] [] [] []]; try done.
    destruct t1 as [|c1 r]; [done|].
    destruct c1 as [[] [] [] [] [] [] [] []]; try done.
    destruct (span_digits r) as [ds' rest] eqn:Hsp.
    destruct (span_digits_inv _ _ _ Hsp) as [-> Hd].
    destruct ds' as [|d ds']; [done|].
    destruct rest as [|c rest]; [done|].
    destruct c as [[] [] [] [] [] [] [] []]; try done.
    destruct (no_line_terminator rest) eqn:Hnl; [|done].
    injection H as <- <-. split_conj; done.
  - intros H. unfold onWasmStderr. by rewrite H.
Qed.

(** X6.  An error event only ever adds a decoration: the lines already
    decorated stay so, at most one line is added, and that line lies inside
    the document; the text, the buffers, the timers and the callback trace
    are untouched. *)
Theorem onWasmStderr_only_decorates (lineCount : string -> nat) (text : string)
    (s : State) :
  let s' := onWasmStderr lineCount text s in
  with_editor (editor s) s' = s /\
  value (editor s') = value (editor s) /\
  mode (editor s') = mode (editor s) /\
  errorLines (editor s) ⊆ errorLines (editor s') /\
  (forall n, n ∈ errorLines (editor s') -> n ∉ errorLines (editor s) ->
     n < lineCount (value (editor s)) /\
     errorLines (editor s') = {[ n ]} ∪ errorLines (editor s)).
Proof.
  intros s'. subst s'. unfold onWasmStderr.
  destruct (errorRegex_match text) as [[ds msg]|];
    [|split_conj; [by destruct s|done|done|done|done]].
  destruct (Z.leb_spec 0 (parseInt ds - 1)); simpl;
    [|split_conj; [by destruct s|done|done|done|done]].
  destruct (Z.ltb_spec (parseInt ds - 1) (Z.of_nat (lineCount (value (editor s)))));
    simpl; [|split_conj; [by destruct s|done|done|done|done]].
  split_conj; [by destruct s|done|done|set_solver|].
  intros n Hin Hnot.
  unfold addLineClass in Hin. simpl in Hin.
  apply elem_of_union in Hin as [Hin|Hin]; [|done].
  apply elem_of_singleton in Hin. rewrite Hin. split; [lia|done].
Qed.

Lemma fold_changeListener_clears ls s :
  ls <> [] ->
  errorLines (editor (fold_left (fun s l => changeListener l s) ls s)) = ∅.
Proof.
  intros Hne. destruct ls as [|l ls _] using rev_ind; [done|].
  rewrite fold_left_app. simpl.
  unfold changeListener, clearErrorHighlighting, setTimeout, clearTimeout.
  destruct (updateTimeout _); reflexivity.
Qed.

(** X7.  Decorations last until the next edit: once a change listener is
    installed, any edit, [setContent] on the active buffer or switch to the
    other buffer leaves no line decorated. *)
Theorem edit_clears_decorations (s s' : State) (t : nat) (e : Event) :
  listeners s <> [] ->
  step t e s = Some s' ->
  match e with
  | Edit _ => True
  | SetContent type _ => type = activeTab s
  | SwitchTab type _ => type <> activeTab s
  | Fire _ => False
  end ->
  errorLines (editor s') = ∅.
Proof.
  intros Hl Hstep He. unfold step in Hstep.
  destruct (t <? now s); [done|].
  destruct e as [v|id|type onSwitch|type v]; [| done | |].
  - injection Hstep as <-. unfold signalChange.
    by apply fold_changeListener_clears.
  - injection Hstep as <-. unfold switchTab.
    rewrite decide_False by done. unfold setValue, signalChange.
    apply fold_changeListener_clears.
    destruct type, (updateTimeout _), onSwitch; exact Hl.
  - injection Hstep as <-. unfold setContent. simpl in He. subst type.
    rewrite decide_True by done. unfold setValue, signalChange.
    by apply fold_changeListener_clears.
Qed.

Lemma edit_clears_decorations_witness :
  let s := onWasmStderr (fun _ => 3)
             "0:2:undeclared identifier"
             (onChange 7 300
                (constructor {| c_frag := "a"; c_vert := "b" |} 0)) in
  elements (errorLines (editor s)) = [1] /\
  errorLines (editor (after_edit "fixed" 4 {| callback := 7; debounceMs := 300 |} s)) = ∅.
Proof.
  split; [vm_compute; reflexivity|].
  apply (edit_clears_decorations
           (onWasmStderr (fun _ => 3) "0:2:undeclared identifier"
              (onChange 7 300 (constructor {| c_frag := "a"; c_vert := "b" |} 0)))
           _ 4 (Edit "fixed")).
  - discriminate.
  - vm_compute. reflexivity.
  - exact I.
Defined.

End DecorationFacts.
